(** * mcpdevmcp: the inspector pipeline, embedded and verified

    A shallow embedding of the TypeScript sources of the MCP server that
    wraps the MCP Inspector CLI:

    - [src/types.ts]: error kinds, [InspectorError], [TargetServer];
    - [src/utils/result.ts]: [inspectorError], [execCommand], [parseJson],
      [formatError];
    - [src/services/inspector-cli.ts]: [buildCliArgs], [runInspectorCli] and
      the six exported operations, in its two revisions (module
      [InspectorCli]: the CLI script run by node, one flag per argument;
      module [NpxInspectorCli]: the package runner with one JSON blob);
    - [src/tools/inspector.ts]: the schemas and the six registered handlers.

    Strings are byte strings holding UTF-8.  The child process and the timer
    are the environment: a run of [execCommand] is driven by the list of
    events its callbacks receive, in the order they are delivered. *)

From Stdlib Require Import String Ascii List ZArith Bool Lia.
From Stdlib Require Import DecimalString.
Import ListNotations.

Local Open Scope string_scope.
Local Open Scope Z_scope.

Set Implicit Arguments.
Set Warnings "-register-all".


(* ================================================================== *)
(** * The JavaScript runtime, as far as the sources use it *)
(* ================================================================== *)

(** The line feed and the double quote, built from their codes. *)
Definition nl : string := String (ascii_of_nat 10) EmptyString.
Definition dquote : string := String (ascii_of_nat 34) EmptyString.

(** Truthiness of a string: every string but the empty one. *)
Definition truthy (s : string) : bool :=
  match s with
  | EmptyString => false
  | String _ _ => true
  end.

(** [a || b] on strings. *)
Definition or_else (a b : string) : string :=
  if truthy a then a else b.

(** The text a template literal gives for an integer-valued number. *)
Definition Number_toString (z : Z) : string :=
  NilZero.string_of_int (Z.to_int z).

(** [`${code}`] for [code : number | null]. *)
Definition code_toString (code : option Z) : string :=
  match code with
  | Some z => Number_toString z
  | None => "null"
  end.

(** A record with string keys, as [Object.entries] lists it. *)
Definition Record (A : Type) : Type := list (string * A).

(** neverthrow's [Result]. *)
Inductive Result (T E : Type) : Type :=
| Ok (value : T)
| Err (error : E).
Arguments Ok {T E} value.
Arguments Err {T E} error.

Definition isOk {T E} (r : Result T E) : bool :=
  match r with Ok _ => true | Err _ => false end.

Definition isErr {T E} (r : Result T E) : bool :=
  match r with Ok _ => false | Err _ => true end.

(** [Result.andThen]. *)
Definition andThen {T U E} (r : Result T E) (f : T -> Result U E) : Result U E :=
  match r with
  | Ok v => f v
  | Err e => Err e
  end.

(** ** JSON values

    A number is either integer-valued, or any other number, which is kept as
    the text [JSON.stringify] prints for it. *)
Inductive JsNumber : Type :=
| JsInt (z : Z)
| JsNonInt (text : string).

Inductive JsonValue : Type :=
| JNull
| JBool (b : bool)
| JNumber (n : JsNumber)
| JString (s : string)
| JArray (items : list JsonValue)
| JObject (entries : list (string * JsonValue)).

Definition JsNumber_text (n : JsNumber) : string :=
  match n with
  | JsInt z => Number_toString z
  | JsNonInt text => text
  end.

Definition hex_digit (n : nat) : ascii :=
  nth n (list_ascii_of_string "0123456789abcdef") "0"%char.

(** The escape [QuoteJSONString] writes for one byte. *)
Definition quote_char (c : ascii) : string :=
  let n := nat_of_ascii c in
  if Nat.eqb n 8 then "\b"
  else if Nat.eqb n 9 then "\t"
  else if Nat.eqb n 10 then "\n"
  else if Nat.eqb n 12 then "\f"
  else if Nat.eqb n 13 then "\r"
  else if Nat.eqb n 34 then "\" ++ dquote
  else if Nat.eqb n 92 then "\\"
  else if Nat.ltb n 32 then
    "\u00" ++ String (hex_digit (Nat.div n 16))
                (String (hex_digit (Nat.modulo n 16)) EmptyString)
  else String c EmptyString.

Fixpoint quote_chars (s : string) : string :=
  match s with
  | EmptyString => EmptyString
  | String c r => quote_char c ++ quote_chars r
  end.

Definition QuoteJSONString (s : string) : string :=
  dquote ++ quote_chars s ++ dquote.

(** [SerializeJSONProperty] of ECMAScript, for a value that came out of
    JSON: [gap] is the indentation unit ([""] for none), [indent] the
    current indentation. *)
Fixpoint SerializeJSONProperty (gap indent : string) (v : JsonValue) : string :=
  match v with
  | JNull => "null"
  | JBool true => "true"
  | JBool false => "false"
  | JNumber n => JsNumber_text n
  | JString s => QuoteJSONString s
  | JArray items =>
      let stepback := indent in
      let indent := indent ++ gap in
      let partial := map (SerializeJSONProperty gap indent) items in
      match partial with
      | [] => "[]"
      | _ =>
          if truthy gap
          then "[" ++ nl ++ indent
               ++ String.concat ("," ++ nl ++ indent) partial
               ++ nl ++ stepback ++ "]"
          else "[" ++ String.concat "," partial ++ "]"
      end
  | JObject entries =>
      let stepback := indent in
      let indent := indent ++ gap in
      let partial :=
        map (fun kv =>
               match kv with
               | (k, x) =>
                   QuoteJSONString k ++ ":"
                   ++ (if truthy gap then " " else EmptyString)
                   ++ SerializeJSONProperty gap indent x
               end) entries in
      match partial with
      | [] => "{}"
      | _ =>
          if truthy gap
          then "{" ++ nl ++ indent
               ++ String.concat ("," ++ nl ++ indent) partial
               ++ nl ++ stepback ++ "}"
          else "{" ++ String.concat "," partial ++ "}"
      end
  end.

(** [JSON.stringify(value)]. *)
Definition JSON_stringify (v : JsonValue) : string :=
  SerializeJSONProperty EmptyString EmptyString v.

(** [JSON.stringify(value, null, 2)]. *)
Definition JSON_stringify_pretty (v : JsonValue) : string :=
  SerializeJSONProperty "  " EmptyString v.

(** ** String.prototype.trim

    White space and line terminators of ECMAScript, in UTF-8: six one-byte
    characters, U+00A0 in two bytes, and U+1680, U+2000 to U+200A, U+2028,
    U+2029, U+202F, U+205F, U+3000 and U+FEFF in three. *)
Definition byte_is (c : ascii) (n : nat) : bool := Nat.eqb (nat_of_ascii c) n.

Definition white1 (c : ascii) : bool :=
  let n := nat_of_ascii c in
  (Nat.leb 9 n && Nat.leb n 13) || Nat.eqb n 32.

Definition white2 (a b : ascii) : bool := byte_is a 194 && byte_is b 160.

Definition white3 (a b c : ascii) : bool :=
  let n := nat_of_ascii c in
  (byte_is a 225 && byte_is b 154 && byte_is c 128)
  || (byte_is a 226 && byte_is b 128
      && ((Nat.leb 128 n && Nat.leb n 138)
          || Nat.eqb n 168 || Nat.eqb n 169 || Nat.eqb n 175))
  || (byte_is a 226 && byte_is b 129 && byte_is c 159)
  || (byte_is a 227 && byte_is b 128 && byte_is c 128)
  || (byte_is a 239 && byte_is b 187 && byte_is c 191).

Fixpoint trimStart (s : string) : string :=
  match s with
  | EmptyString => EmptyString
  | String a r =>
      if white1 a then trimStart r
      else
        match r with
        | EmptyString => s
        | String b r2 =>
            if white2 a b then trimStart r2
            else
              match r2 with
              | EmptyString => s
              | String c r3 => if white3 a b c then trimStart r3 else s
              end
        end
  end.

(** The same from the other end, on the bytes in reverse order. *)
Fixpoint trimStart_reversed (s : list ascii) : list ascii :=
  match s with
  | [] => []
  | c :: r =>
      if white1 c then trimStart_reversed r
      else
        match r with
        | [] => s
        | b :: r2 =>
            if white2 b c then trimStart_reversed r2
            else
              match r2 with
              | [] => s
              | a :: r3 => if white3 a b c then trimStart_reversed r3 else s
              end
        end
  end.

Definition trimEnd (s : string) : string :=
  string_of_list_ascii
    (rev (trimStart_reversed (rev (list_ascii_of_string s)))).

Definition trim (s : string) : string := trimEnd (trimStart s).

(* ================================================================== *)
(** * src/types.ts *)
(* ================================================================== *)

Inductive InspectorErrorKind : Type :=
| SPAWN_FAILED
| EXECUTION_FAILED
| PARSE_FAILED
| TIMEOUT
| INVALID_RESPONSE
| CONNECTION_FAILED.

(** The string a kind is at run time. *)
Definition kind_text (k : InspectorErrorKind) : string :=
  match k with
  | SPAWN_FAILED => "SPAWN_FAILED"
  | EXECUTION_FAILED => "EXECUTION_FAILED"
  | PARSE_FAILED => "PARSE_FAILED"
  | TIMEOUT => "TIMEOUT"
  | INVALID_RESPONSE => "INVALID_RESPONSE"
  | CONNECTION_FAILED => "CONNECTION_FAILED"
  end.

Record InspectorError : Type := {
  kind : InspectorErrorKind;
  message : string;
  details : option string
}.

Inductive TransportType : Type := stdio | sse | http.

Definition transport_text (t : TransportType) : string :=
  match t with
  | stdio => "stdio"
  | sse => "sse"
  | http => "http"
  end.

Record TargetServer : Type := {
  target : string;
  transport : option TransportType;
  env : option (Record string)
}.

(* ================================================================== *)
(** * src/utils/result.ts *)
(* ================================================================== *)

Definition inspectorError (k : InspectorErrorKind) (msg : string)
    (det : option string) : InspectorError :=
  {| kind := k; message := msg; details := det |}.

(** ** Values that are thrown or that reject a promise

    The sources meet three sorts: the plain objects [inspectorError] builds,
    instances of [Error] (what [spawn] and [JSON.parse] throw: they carry a
    name and a message and no [kind] property), and anything else, which is
    kept as the text [String] gives for it. *)
Inductive JsThrown : Type :=
| ThrownInspectorError (e : InspectorError)
| ThrownError (name msg : string)
| ThrownOther (rendered : string).

(** [Error.prototype.toString]. *)
Definition Error_toString (name msg : string) : string :=
  if truthy name
  then if truthy msg then name ++ ": " ++ msg else name
  else msg.

(** [String(error)]. *)
Definition String_of_thrown (t : JsThrown) : string :=
  match t with
  | ThrownInspectorError _ => "[object Object]"
  | ThrownError name msg => Error_toString name msg
  | ThrownOther rendered => rendered
  end.

(** The type guard: an object that has a [kind] and a [message]. *)
Definition isInspectorError (t : JsThrown) : option InspectorError :=
  match t with
  | ThrownInspectorError e => Some e
  | ThrownError _ _ => None
  | ThrownOther _ => None
  end.

(** ** execCommand *)

Record ExecOptions : Type := {
  cwd : option string;
  opt_env : option (Record string);
  timeoutMs : option Z;
  shell : option bool
}.

(** What is handed to [spawn]. *)
Record SpawnCall : Type := {
  spawn_command : string;
  spawn_args : list string;
  spawn_cwd : option string;
  spawn_env : option (Record string);
  spawn_shell : bool
}.

(** What the callbacks of one run can be called with. *)
Inductive ChildEvent : Type :=
| StdoutData (data : string)
| StderrData (data : string)
| TimerFires
| ErrorEvent (msg : string)
| CloseEvent (code : option Z).

(** [spawn] either throws at once, an instance of [Error], or returns a
    process whose events follow. *)
Inductive ChildProcess : Type :=
| SpawnThrew (name msg : string)
| Spawned (events : list ChildEvent).

(** The variables the executor closes over, the timer, the signals sent so
    far, and the promise: [None] while it is pending. *)
Record ExecState : Type := {
  stdout : string;
  stderr : string;
  timedOut : bool;
  timerArmed : bool;
  killed : list string;
  settled : option (Result string JsThrown)
}.

Definition initial : ExecState :=
  {| stdout := EmptyString; stderr := EmptyString; timedOut := false;
     timerArmed := true; killed := []; settled := None |}.

(** [resolve] and [reject]: the first call settles the promise, later calls
    do nothing. *)
Definition settle (st : ExecState) (r : Result string JsThrown) : ExecState :=
  match settled st with
  | Some _ => st
  | None =>
      {| stdout := stdout st; stderr := stderr st; timedOut := timedOut st;
         timerArmed := timerArmed st; killed := killed st;
         settled := Some r |}
  end.

Definition clearTimeout (st : ExecState) : ExecState :=
  {| stdout := stdout st; stderr := stderr st; timedOut := timedOut st;
     timerArmed := false; killed := killed st; settled := settled st |}.

Section ExecCommand.

Variable command : string.
Variable timeout : Z.

(** One callback. *)
Definition on_event (st : ExecState) (ev : ChildEvent) : ExecState :=
  match ev with
  | StdoutData data =>
      {| stdout := stdout st ++ data; stderr := stderr st;
         timedOut := timedOut st; timerArmed := timerArmed st;
         killed := killed st; settled := settled st |}
  | StderrData data =>
      {| stdout := stdout st; stderr := stderr st ++ data;
         timedOut := timedOut st; timerArmed := timerArmed st;
         killed := killed st; settled := settled st |}
  | TimerFires =>
      if timerArmed st
      then {| stdout := stdout st; stderr := stderr st;
              timedOut := true; timerArmed := false;
              killed := killed st ++ ["SIGTERM"];
              settled := settled st |}
      else st
  | ErrorEvent msg =>
      settle (clearTimeout st)
        (Err (ThrownInspectorError
                (inspectorError SPAWN_FAILED
                   ("Failed to spawn command: " ++ command) (Some msg))))
  | CloseEvent code =>
      let st := clearTimeout st in
      if timedOut st then
        settle st
          (Err (ThrownInspectorError
                  (inspectorError TIMEOUT
                     ("Command timed out after " ++ Number_toString timeout ++ "ms")
                     (Some (stderr st)))))
      else if negb (match code with Some 0 => true | _ => false end) then
        settle st
          (Err (ThrownInspectorError
                  (inspectorError EXECUTION_FAILED
                     ("Command exited with code " ++ code_toString code)
                     (Some (or_else (stderr st) (stdout st))))))
      else settle st (Ok (stdout st))
  end.

Definition run_events (events : list ChildEvent) (st : ExecState) : ExecState :=
  fold_left on_event events st.

End ExecCommand.

(** The error mapper given to [ResultAsync.fromPromise]. *)
Definition mapRejection (t : JsThrown) : InspectorError :=
  match isInspectorError t with
  | Some e => e
  | None =>
      inspectorError SPAWN_FAILED "Unknown error during command execution"
        (Some (String_of_thrown t))
  end.

(** One run of [execCommand]: the call to [spawn], the delay of the timer,
    the signals sent, and the result, [None] while it is pending. *)
Record ExecRun : Type := {
  spawned : SpawnCall;
  timerDelay : Z;
  signals : list string;
  result : option (Result string InspectorError)
}.

Definition timeout_of (options : option ExecOptions) : Z :=
  match options with
  | Some o => match timeoutMs o with Some t => t | None => 30000 end
  | None => 30000
  end.

Definition spawnCall_of (command : string) (args : list string)
    (options : option ExecOptions) : SpawnCall :=
  {| spawn_command := command;
     spawn_args := args;
     spawn_cwd := match options with Some o => cwd o | None => None end;
     spawn_env := match options with Some o => opt_env o | None => None end;
     spawn_shell :=
       match options with
       | Some o => match shell o with Some b => b | None => true end
       | None => true
       end |}.

Definition fromPromise (p : option (Result string JsThrown))
    : option (Result string InspectorError) :=
  match p with
  | None => None
  | Some (Ok out) => Some (Ok out)
  | Some (Err t) => Some (Err (mapRejection t))
  end.

Definition execCommand (command : string) (args : list string)
    (options : option ExecOptions) (child : ChildProcess) : ExecRun :=
  let timeout := timeout_of options in
  match child with
  | SpawnThrew name msg =>
      {| spawned := spawnCall_of command args options;
         timerDelay := timeout;
         signals := [];
         result := fromPromise (Some (Err (ThrownError name msg))) |}
  | Spawned events =>
      let st := run_events command timeout events initial in
      {| spawned := spawnCall_of command args options;
         timerDelay := timeout;
         signals := killed st;
         result := fromPromise (settled st) |}
  end.

(** ** formatError *)

Definition formatError (error : InspectorError) : string :=
  let msg := "Error [" ++ kind_text (kind error) ++ "]: " ++ message error in
  match details error with
  | Some d => if truthy d then msg ++ nl ++ "Details: " ++ d else msg
  | None => msg
  end.

(** ** parseJson

    [JSON.parse] belongs to the runtime: it returns a value or throws. *)
Inductive Completion (A : Type) : Type :=
| Returns (value : A)
| Throws (thrown : JsThrown).
Arguments Returns {A} value.
Arguments Throws {A} thrown.

Class JsRuntime : Type := {
  JSON_parse : string -> Completion JsonValue
}.

(** [error instanceof Error ? error.message : String(error)]. *)
Definition thrown_message (error : JsThrown) : string :=
  match error with
  | ThrownError _ msg => msg
  | _ => String_of_thrown error
  end.

Definition parseJson `{JsRuntime} (jsonString : string)
    : Result JsonValue InspectorError :=
  match JSON_parse jsonString with
  | Returns parsed => Ok parsed
  | Throws error =>
      Err (inspectorError PARSE_FAILED "Failed to parse JSON response"
             (Some (thrown_message error)))
  end.

(* ================================================================== *)
(** * src/services/inspector-cli.ts *)
(* ================================================================== *)

Inductive InspectorMethod : Type :=
| tools_list
| tools_call
| resources_list
| resources_read
| prompts_list
| prompts_get.

Definition method_text (m : InspectorMethod) : string :=
  match m with
  | tools_list => "tools/list"
  | tools_call => "tools/call"
  | resources_list => "resources/list"
  | resources_read => "resources/read"
  | prompts_list => "prompts/list"
  | prompts_get => "prompts/get"
  end.

(** One run of [runInspectorCli]: the run of [execCommand] under it and the
    decoded outcome, [None] while the child has not settled it. *)
Record PipelineRun : Type := {
  exec : ExecRun;
  outcome : option (Result JsonValue InspectorError)
}.

(** The callback given to [andThen] in [runInspectorCli], the same in both
    revisions. *)
Definition decodeOutput `{JsRuntime} (output : string)
    : Result JsonValue InspectorError :=
  let trimmedOutput := trim output in
  let jsonStr := or_else trimmedOutput "{}" in
  let parseResult := parseJson jsonStr in
  match parseResult with
  | Ok value => Ok value
  | Err error => Err error
  end.

(** [-e KEY=VALUE] for each entry of [target.env]. *)
Definition envFlags (e : Record string) : list string :=
  flat_map (fun kv => match kv with (key, value) => ["-e"; key ++ "=" ++ value] end) e.

(** ** The current revision: node runs the CLI script, one flag per argument *)
Module InspectorCli.

(** The shapes the type assertions of [buildCliArgs] give to [methodArgs]. *)
Record ToolCallArgs : Type := {
  tc_name : string;
  tc_arguments : option (Record JsonValue)
}.

Record ResourceReadArgs : Type := { rr_uri : string }.

Record PromptGetArgs : Type := {
  pg_name : string;
  pg_arguments : option (Record string)
}.

Definition MethodArgs (m : InspectorMethod) : Type :=
  match m with
  | tools_call => ToolCallArgs
  | resources_read => ResourceReadArgs
  | prompts_get => PromptGetArgs
  | _ => Record JsonValue
  end.

(** [typeof value === 'string' ? value : JSON.stringify(value)]. *)
Definition toolArgText (value : JsonValue) : string :=
  match value with
  | JString s => s
  | _ => JSON_stringify value
  end.

Definition toolArgFlags (toolArgs : Record JsonValue) : list string :=
  flat_map (fun kv =>
              match kv with
              | (key, value) => ["--tool-arg"; key ++ "=" ++ toolArgText value]
              end) toolArgs.

Definition promptArgFlags (promptArgs : Record string) : list string :=
  flat_map (fun kv =>
              match kv with
              | (key, value) => ["--prompt-args"; key ++ "=" ++ value]
              end) promptArgs.

(** The method specific arguments. *)
Definition methodFlags (m : InspectorMethod) : MethodArgs m -> list string :=
  match m return MethodArgs m -> list string with
  | tools_call => fun a =>
      (["--tool-name"; tc_name a]
       ++ match tc_arguments a with
          | Some toolArgs => toolArgFlags toolArgs
          | None => []
          end)%list
  | resources_read => fun a => ["--uri"; rr_uri a]
  | prompts_get => fun a =>
      (["--prompt-name"; pg_name a]
       ++ match pg_arguments a with
          | Some promptArgs => promptArgFlags promptArgs
          | None => []
          end)%list
  | _ => fun _ => []
  end.

Section WithInspectorPath.

(** The path [require.resolve] found for the CLI script when the module
    was loaded. *)
Variable inspectorPath : string.
Context `{JsRuntime}.

Definition buildCliArgs (m : InspectorMethod) (t : TargetServer)
    (methodArgs : option (MethodArgs m)) : list string :=
  ([inspectorPath; "--cli"]
  ++ [target t]
  ++ ["--method"; method_text m]
  ++ match transport t with
     | Some tr => ["--transport"; transport_text tr]
     | None => []
     end
  ++ match env t with
     | Some e => envFlags e
     | None => []
     end
  ++ match methodArgs with
     | Some a => methodFlags m a
     | None => []
     end)%list.

Definition runInspectorCli (m : InspectorMethod) (t : TargetServer)
    (methodArgs : option (MethodArgs m)) (timeout : option Z)
    (child : ChildProcess) : PipelineRun :=
  let args := buildCliArgs m t methodArgs in
  let run :=
    execCommand "node" args
      (Some {| cwd := None; opt_env := None;
               timeoutMs := Some (match timeout with Some ms => ms | None => 60000 end);
               shell := Some false |})
      child in
  {| exec := run;
     outcome := option_map (fun r => andThen r decodeOutput) (result run) |}.

Definition listTools (t : TargetServer) (timeout : option Z) :=
  runInspectorCli tools_list t None timeout.

Definition callTool (t : TargetServer) (toolName : string)
    (toolArgs : option (Record JsonValue)) (timeout : option Z) :=
  runInspectorCli tools_call t
    (Some {| tc_name := toolName;
             tc_arguments :=
               Some (match toolArgs with Some a => a | None => [] end) |})
    timeout.

Definition listResources (t : TargetServer) (timeout : option Z) :=
  runInspectorCli resources_list t None timeout.

Definition readResource (t : TargetServer) (uri : string) (timeout : option Z) :=
  runInspectorCli resources_read t (Some {| rr_uri := uri |}) timeout.

Definition listPrompts (t : TargetServer) (timeout : option Z) :=
  runInspectorCli prompts_list t None timeout.

Definition getPrompt (t : TargetServer) (promptName : string)
    (promptArgs : option (Record string)) (timeout : option Z) :=
  runInspectorCli prompts_get t
    (Some {| pg_name := promptName;
             pg_arguments :=
               Some (match promptArgs with Some a => a | None => [] end) |})
    timeout.

End WithInspectorPath.

End InspectorCli.

(** ** The earlier revision: npx runs the package, one JSON blob *)
Module NpxInspectorCli.

(** [Object.keys(methodArgs).length > 0]. *)
Definition hasKeys (methodArgs : Record JsonValue) : bool :=
  match methodArgs with
  | [] => false
  | _ :: _ => true
  end.

Definition buildCliArgs (m : InspectorMethod) (t : TargetServer)
    (methodArgs : option (Record JsonValue)) : list string :=
  (["@modelcontextprotocol/inspector"; "--cli"]
  ++ ["--method"; method_text m]
  ++ match transport t with
     | Some tr => ["--transport"; transport_text tr]
     | None => []
     end
  ++ match env t with
     | Some e => envFlags e
     | None => []
     end
  ++ match methodArgs with
     | Some a => if hasKeys a then ["--json"; JSON_stringify (JObject a)] else []
     | None => []
     end
  ++ [target t])%list.

Section WithRuntime.

Context `{JsRuntime}.

Definition runInspectorCli (m : InspectorMethod) (t : TargetServer)
    (methodArgs : option (Record JsonValue)) (timeout : option Z)
    (child : ChildProcess) : PipelineRun :=
  let args := buildCliArgs m t methodArgs in
  let run :=
    execCommand "npx" args
      (Some {| cwd := None; opt_env := None;
               timeoutMs := Some (match timeout with Some ms => ms | None => 60000 end);
               shell := None |})
      child in
  {| exec := run;
     outcome := option_map (fun r => andThen r decodeOutput) (result run) |}.

Definition listTools (t : TargetServer) (timeout : option Z) :=
  runInspectorCli tools_list t None timeout.

Definition callTool (t : TargetServer) (toolName : string)
    (toolArgs : option (Record JsonValue)) (timeout : option Z) :=
  runInspectorCli tools_call t
    (Some [("name", JString toolName);
           ("arguments", JObject (match toolArgs with Some a => a | None => [] end))])
    timeout.

Definition listResources (t : TargetServer) (timeout : option Z) :=
  runInspectorCli resources_list t None timeout.

Definition readResource (t : TargetServer) (uri : string) (timeout : option Z) :=
  runInspectorCli resources_read t (Some [("uri", JString uri)]) timeout.

Definition listPrompts (t : TargetServer) (timeout : option Z) :=
  runInspectorCli prompts_list t None timeout.

Definition getPrompt (t : TargetServer) (promptName : string)
    (promptArgs : option (Record string)) (timeout : option Z) :=
  runInspectorCli prompts_get t
    (Some [("name", JString promptName);
           ("arguments",
            JObject (map (fun kv => match kv with (k, v) => (k, JString v) end)
                       (match promptArgs with Some a => a | None => [] end)))])
    timeout.

End WithRuntime.

End NpxInspectorCli.

(* ================================================================== *)
(** * src/tools/inspector.ts *)
(* ================================================================== *)

(** ** The input schemas

    The arguments of a call arrive as a JSON object.  Each schema either
    yields the parsed value or names the field it refuses. *)
Record SchemaIssue : Type := { issue_path : string }.

Definition Parsed (A : Type) : Type := Result A SchemaIssue.

Fixpoint lookup {A} (key : string) (r : Record A) : option A :=
  match r with
  | [] => None
  | (k, v) :: rest => if String.eqb k key then Some v else lookup key rest
  end.

(** [z.string().min(1)]. *)
Definition nonEmptyString (path : string) (v : option JsonValue) : Parsed string :=
  match v with
  | Some (JString s) => if truthy s then Ok s else Err {| issue_path := path |}
  | _ => Err {| issue_path := path |}
  end.

(** [z.enum(["stdio", "sse", "http"]).optional()]. *)
Definition TransportSchema (path : string) (v : option JsonValue)
    : Parsed (option TransportType) :=
  match v with
  | None => Ok None
  | Some (JString s) =>
      if String.eqb s "stdio" then Ok (Some stdio)
      else if String.eqb s "sse" then Ok (Some sse)
      else if String.eqb s "http" then Ok (Some http)
      else Err {| issue_path := path |}
  | Some _ => Err {| issue_path := path |}
  end.

(** [z.number().int().min(1000).max(300000).default(60000)]. *)
Definition timeoutSchema (path : string) (v : option JsonValue) : Parsed Z :=
  match v with
  | None => Ok 60000
  | Some (JNumber (JsInt z)) =>
      if (1000 <=? z) && (z <=? 300000) then Ok z else Err {| issue_path := path |}
  | Some _ => Err {| issue_path := path |}
  end.

(** What the record parser of zod builds from the entries it has parsed:
    every entry is assigned to the result in turn, but for one whose key is
    [__proto__], which is left out. *)
Definition mergeObject {A} (pairs : Record A) : Record A :=
  filter (fun kv => negb (String.eqb (fst kv) "__proto__")) pairs.

(** [z.record(z.unknown()).default({})]. *)
Definition unknownRecordSchema (path : string) (v : option JsonValue)
    : Parsed (Record JsonValue) :=
  match v with
  | None => Ok []
  | Some (JObject entries) => Ok (mergeObject entries)
  | Some _ => Err {| issue_path := path |}
  end.

Fixpoint stringEntries (path : string) (entries : Record JsonValue)
    : Parsed (Record string) :=
  match entries with
  | [] => Ok []
  | (k, JString s) :: rest =>
      andThen (stringEntries path rest) (fun r => Ok ((k, s) :: r))
  | (_, _) :: _ => Err {| issue_path := path |}
  end.

(** [z.record(z.string()).default({})]. *)
Definition stringRecordSchema (path : string) (v : option JsonValue)
    : Parsed (Record string) :=
  match v with
  | None => Ok []
  | Some (JObject entries) =>
      andThen (stringEntries path entries) (fun r => Ok (mergeObject r))
  | Some _ => Err {| issue_path := path |}
  end.

(** What [TargetServerSchema] parses to. *)
Record TargetParams : Type := {
  p_target : string;
  p_transport : option TransportType;
  timeout_ms : Z
}.

Definition TargetServerSchema (input : Record JsonValue) : Parsed TargetParams :=
  andThen (nonEmptyString "target" (lookup "target" input)) (fun t =>
  andThen (TransportSchema "transport" (lookup "transport" input)) (fun tr =>
  andThen (timeoutSchema "timeout_ms" (lookup "timeout_ms" input)) (fun ms =>
  Ok {| p_target := t; p_transport := tr; timeout_ms := ms |}))).

(** The six registered tools. *)
Inductive ToolName : Type :=
| mcpdev_inspector_list_tools
| mcpdev_inspector_call_tool
| mcpdev_inspector_list_resources
| mcpdev_inspector_read_resource
| mcpdev_inspector_list_prompts
| mcpdev_inspector_get_prompt.

(** The parsed parameters a handler is called with. *)
Inductive ToolParams : ToolName -> Type :=
| ListToolsParams (p : TargetParams) : ToolParams mcpdev_inspector_list_tools
| CallToolParams (p : TargetParams) (tool_name : string)
    (tool_args : Record JsonValue) : ToolParams mcpdev_inspector_call_tool
| ListResourcesParams (p : TargetParams)
    : ToolParams mcpdev_inspector_list_resources
| ReadResourceParams (p : TargetParams) (uri : string)
    : ToolParams mcpdev_inspector_read_resource
| ListPromptsParams (p : TargetParams) : ToolParams mcpdev_inspector_list_prompts
| GetPromptParams (p : TargetParams) (prompt_name : string)
    (prompt_args : Record string) : ToolParams mcpdev_inspector_get_prompt.

Definition targetParams {n} (params : ToolParams n) : TargetParams :=
  match params with
  | ListToolsParams p => p
  | CallToolParams p _ _ => p
  | ListResourcesParams p => p
  | ReadResourceParams p _ => p
  | ListPromptsParams p => p
  | GetPromptParams p _ _ => p
  end.

(** [inputSchema] of each tool: [TargetServerSchema], extended for three. *)
Definition inputSchema (n : ToolName) (input : Record JsonValue)
    : Parsed (ToolParams n) :=
  match n with
  | mcpdev_inspector_list_tools =>
      andThen (TargetServerSchema input) (fun p => Ok (ListToolsParams p))
  | mcpdev_inspector_call_tool =>
      andThen (TargetServerSchema input) (fun p =>
      andThen (nonEmptyString "tool_name" (lookup "tool_name" input)) (fun name =>
      andThen (unknownRecordSchema "tool_args" (lookup "tool_args" input)) (fun a =>
      Ok (CallToolParams p name a))))
  | mcpdev_inspector_list_resources =>
      andThen (TargetServerSchema input) (fun p => Ok (ListResourcesParams p))
  | mcpdev_inspector_read_resource =>
      andThen (TargetServerSchema input) (fun p =>
      andThen (nonEmptyString "uri" (lookup "uri" input)) (fun uri =>
      Ok (ReadResourceParams p uri)))
  | mcpdev_inspector_list_prompts =>
      andThen (TargetServerSchema input) (fun p => Ok (ListPromptsParams p))
  | mcpdev_inspector_get_prompt =>
      andThen (TargetServerSchema input) (fun p =>
      andThen (nonEmptyString "prompt_name" (lookup "prompt_name" input)) (fun name =>
      andThen (stringRecordSchema "prompt_args" (lookup "prompt_args" input)) (fun a =>
      Ok (GetPromptParams p name a))))
  end.

(** ** The handlers *)

Record ContentItem : Type := {
  type : string;
  text : string
}.

(** What a handler returns; [isError] is [None] where the handler leaves
    the field out. *)
Record CallToolResult : Type := {
  content : list ContentItem;
  isError : option bool
}.

(** One run of a handler: the pipeline under it and the value returned,
    [None] while the handler awaits the pipeline. *)
Record HandlerRun : Type := {
  pipeline : PipelineRun;
  returned : option CallToolResult
}.

(** What every handler does with the awaited result. *)
Definition respond (r : Result JsonValue InspectorError) : CallToolResult :=
  match r with
  | Err error =>
      {| content := [{| type := "text"; text := formatError error |}];
         isError := Some true |}
  | Ok value =>
      {| content := [{| type := "text"; text := JSON_stringify_pretty value |}];
         isError := None |}
  end.

Definition awaitAndRespond (run : PipelineRun) : HandlerRun :=
  {| pipeline := run; returned := option_map respond (outcome run) |}.

(** A call of a registered tool either stops at the schema or reaches the
    handler. *)
Inductive ToolCallRun : Type :=
| InputRefused (issue : SchemaIssue)
| HandlerCalled (run : HandlerRun).

Section Tools.

Variable inspectorPath : string.
Context `{JsRuntime}.

(** The target a handler builds from its parameters. *)
Definition targetOf (p : TargetParams) : TargetServer :=
  {| target := p_target p; transport := p_transport p; env := None |}.

Definition handler {n} (params : ToolParams n) (child : ChildProcess)
    : HandlerRun :=
  match params with
  | ListToolsParams p =>
      awaitAndRespond
        (InspectorCli.listTools inspectorPath (targetOf p)
           (Some (timeout_ms p)) child)
  | CallToolParams p tool_name tool_args =>
      awaitAndRespond
        (InspectorCli.callTool inspectorPath (targetOf p) tool_name
           (Some tool_args) (Some (timeout_ms p)) child)
  | ListResourcesParams p =>
      awaitAndRespond
        (InspectorCli.listResources inspectorPath (targetOf p)
           (Some (timeout_ms p)) child)
  | ReadResourceParams p uri =>
      awaitAndRespond
        (InspectorCli.readResource inspectorPath (targetOf p) uri
           (Some (timeout_ms p)) child)
  | ListPromptsParams p =>
      awaitAndRespond
        (InspectorCli.listPrompts inspectorPath (targetOf p)
           (Some (timeout_ms p)) child)
  | GetPromptParams p prompt_name prompt_args =>
      awaitAndRespond
        (InspectorCli.getPrompt inspectorPath (targetOf p) prompt_name
           (Some prompt_args) (Some (timeout_ms p)) child)
  end.

(** A call of a registered tool, as the server runs it: the arguments are
    parsed by the tool's schema, and the handler is called with the parsed
    value only. *)
Definition callRegisteredTool (n : ToolName) (input : Record JsonValue)
    (child : ChildProcess) : ToolCallRun :=
  match inputSchema n input with
  | Err issue => InputRefused issue
  | Ok params => HandlerCalled (handler params child)
  end.

(** The calls to [spawn] a tool call made. *)
Definition spawnCalls (r : ToolCallRun) : list (SpawnCall * Z) :=
  match r with
  | InputRefused _ => []
  | HandlerCalled run =>
      [(spawned (exec (pipeline run)), timerDelay (exec (pipeline run)))]
  end.

End Tools.

(* ================================================================== *)
(** * Vocabulary of the properties *)
(* ================================================================== *)

(** Output events only: the child writes, and neither the timer nor the
    process has ended the run. *)
Definition is_data (ev : ChildEvent) : bool :=
  match ev with
  | StdoutData _ | StderrData _ => true
  | _ => false
  end.

Definition data_only (events : list ChildEvent) : bool := forallb is_data events.

Definition is_error_event (ev : ChildEvent) : bool :=
  match ev with
  | ErrorEvent _ => true
  | _ => false
  end.

(** What the child wrote to each stream, chunks joined in order. *)
Fixpoint stdout_of (events : list ChildEvent) : string :=
  match events with
  | [] => EmptyString
  | StdoutData d :: rest => d ++ stdout_of rest
  | _ :: rest => stdout_of rest
  end.

Fixpoint stderr_of (events : list ChildEvent) : string :=
  match events with
  | [] => EmptyString
  | StderrData d :: rest => d ++ stderr_of rest
  | _ :: rest => stderr_of rest
  end.

(** [code !== 0]. *)
Definition nonzero (code : option Z) : bool :=
  negb (match code with Some 0 => true | _ => false end).

(** The error of the timed-out branch of the close handler. *)
Definition timeoutError (timeout : Z) (det : string) : InspectorError :=
  inspectorError TIMEOUT
    ("Command timed out after " ++ Number_toString timeout ++ "ms") (Some det).

(** Once the timed-out flag is set, the promise is pending or rejected, by
    the timed-out branch or by the error handler. *)
Definition flagged (st : ExecState) : Prop :=
  timedOut st = true
  /\ (settled st = None
      \/ exists e, settled st = Some (Err (ThrownInspectorError e))
                   /\ (kind e = TIMEOUT \/ kind e = SPAWN_FAILED)).

(** The same when no error event is delivered: pending, or rejected by the
    timed-out branch. *)
Definition flagged_quiet (timeout : Z) (st : ExecState) : Prop :=
  timedOut st = true
  /\ (settled st = None
      \/ exists det,
           settled st = Some (Err (ThrownInspectorError (timeoutError timeout det)))).

(** The flags both revisions write for the transport and the environment
    of a target. *)
Definition transportFlags (t : TargetServer) : list string :=
  match transport t with
  | Some tr => ["--transport"; transport_text tr]
  | None => []
  end.

Definition targetEnvFlags (t : TargetServer) : list string :=
  match env t with
  | Some e => flat_map (fun kv => ["-e"; fst kv ++ "=" ++ snd kv]) e
  | None => []
  end.

(** The text of one tool argument: a string as it is, any other value as
    JSON. *)
Definition toolArgWord (kv : string * JsonValue) : string :=
  fst kv ++ "=" ++ match snd kv with
                   | JString s => s
                   | v => JSON_stringify v
                   end.

Definition toolArgPair (kv : string * JsonValue) : list string :=
  ["--tool-arg"; toolArgWord kv].

(** The one pair the earlier revision writes for the method arguments. *)
Definition jsonPair (methodArgs : option (Record JsonValue)) : list string :=
  match methodArgs with
  | Some (entry :: entries) => ["--json"; JSON_stringify (JObject (entry :: entries))]
  | _ => []
  end.

(** The first line [formatError] writes. *)
Definition headline (error : InspectorError) : string :=
  "Error [" ++ kind_text (kind error) ++ "]: " ++ message error.

(** The formatter as the specification words it: the details line is there
    whenever the details field is. *)
Definition formatError_as_specified (error : InspectorError) : string :=
  match details error with
  | Some d => headline error ++ nl ++ "Details: " ++ d
  | None => headline error
  end.

(** The kinds [execCommand] rejects with. *)
Definition raised_by_exec (k : InspectorErrorKind) : Prop :=
  k = SPAWN_FAILED \/ k = EXECUTION_FAILED \/ k = TIMEOUT.

(** The kinds the pipeline fails with. *)
Definition raised_by_pipeline (k : InspectorErrorKind) : Prop :=
  k = SPAWN_FAILED \/ k = EXECUTION_FAILED \/ k = TIMEOUT \/ k = PARSE_FAILED.

(** A promise that is pending, resolved, or rejected with an error of
    [execCommand]'s own making. *)
Definition clean (st : ExecState) : Prop :=
  match settled st with
  | Some (Err t) =>
      exists e, t = ThrownInspectorError e /\ raised_by_exec (kind e)
  | _ => True
  end.

(** The response of a handler to a failure, and to a decoded value. *)
Definition errorResponse (error : InspectorError) : CallToolResult :=
  {| content := [{| type := "text"; text := formatError error |}];
     isError := Some true |}.

Definition valueResponse (value : JsonValue) : CallToolResult :=
  {| content := [{| type := "text"; text := JSON_stringify_pretty value |}];
     isError := None |}.

(** A value the timeout schema accepts. *)
Definition acceptable_timeout (v : JsonValue) : bool :=
  match v with
  | JNumber (JsInt z) => (1000 <=? z) && (z <=? 300000)
  | _ => false
  end.

(** A stand-in for [JSON.parse] to run closed examples with: it knows the
    empty object and one tool list, and throws a syntax error on any other
    text. *)
Definition sample_tools_text : string :=
  "{" ++ dquote ++ "tools" ++ dquote ++ ":[]}".

Definition sample_parse (s : string) : Completion JsonValue :=
  if String.eqb s "{}" then Returns (JObject [])
  else if String.eqb s sample_tools_text
       then Returns (JObject [("tools", JArray [])])
       else Throws (ThrownError "SyntaxError" ("Unexpected token in " ++ s)).

Definition sample_runtime : JsRuntime := {| JSON_parse := sample_parse |}.

(* ================================================================== *)
(** * src/tools/inspector.ts: what each tool is registered with *)
(* ================================================================== *)

(** The name a tool is registered under. *)
Definition registeredName (n : ToolName) : string :=
  match n with
  | mcpdev_inspector_list_tools => "mcpdev_inspector_list_tools"
  | mcpdev_inspector_call_tool => "mcpdev_inspector_call_tool"
  | mcpdev_inspector_list_resources => "mcpdev_inspector_list_resources"
  | mcpdev_inspector_read_resource => "mcpdev_inspector_read_resource"
  | mcpdev_inspector_list_prompts => "mcpdev_inspector_list_prompts"
  | mcpdev_inspector_get_prompt => "mcpdev_inspector_get_prompt"
  end.

Definition title (n : ToolName) : string :=
  match n with
  | mcpdev_inspector_list_tools => "List MCP Server Tools"
  | mcpdev_inspector_call_tool => "Call MCP Server Tool"
  | mcpdev_inspector_list_resources => "List MCP Server Resources"
  | mcpdev_inspector_read_resource => "Read MCP Server Resource"
  | mcpdev_inspector_list_prompts => "List MCP Server Prompts"
  | mcpdev_inspector_get_prompt => "Get MCP Server Prompt"
  end.

Record ToolAnnotations : Type := {
  readOnlyHint : bool;
  destructiveHint : bool;
  idempotentHint : bool;
  openWorldHint : bool
}.

Definition annotations (n : ToolName) : ToolAnnotations :=
  match n with
  | mcpdev_inspector_call_tool =>
      {| readOnlyHint := false; destructiveHint := true;
         idempotentHint := false; openWorldHint := true |}
  | _ =>
      {| readOnlyHint := true; destructiveHint := false;
         idempotentHint := true; openWorldHint := true |}
  end.

(** The tools in the order [registerInspectorTools] registers them. *)
Definition registeredTools : list ToolName :=
  [mcpdev_inspector_list_tools; mcpdev_inspector_call_tool;
   mcpdev_inspector_list_resources; mcpdev_inspector_read_resource;
   mcpdev_inspector_list_prompts; mcpdev_inspector_get_prompt].

(* ================================================================== *)
(** * Further vocabulary *)
(* ================================================================== *)

(** The events whose handlers settle the promise. *)
Definition settling (ev : ChildEvent) : bool :=
  match ev with
  | CloseEvent _ | ErrorEvent _ => true
  | _ => false
  end.

(** What the state of a run keeps at every step: a settled promise or a
    fired timer leaves the timer disarmed; the signal list says whether the
    timer fired; and the settled value agrees with the flag. *)
Definition coherent (st : ExecState) : Prop :=
  (settled st <> None -> timerArmed st = false)
  /\ (timedOut st = true -> timerArmed st = false /\ killed st = ["SIGTERM"])
  /\ (timedOut st = false -> killed st = [])
  /\ match settled st with
     | Some (Ok _) => timedOut st = false
     | Some (Err t) =>
         exists e, t = ThrownInspectorError e
                   /\ (kind e = TIMEOUT -> timedOut st = true)
                   /\ (kind e = EXECUTION_FAILED -> timedOut st = false)
     | None => True
     end.

(** The three rejections the handlers of a spawned command make, each with
    the event that caused it. *)
Definition shaped (command : string) (timeout : Z) (events : list ChildEvent)
    (e : InspectorError) : Prop :=
  (exists msg, In (ErrorEvent msg) events
               /\ e = inspectorError SPAWN_FAILED
                        ("Failed to spawn command: " ++ command) (Some msg))
  \/ (exists code det, In (CloseEvent code) events
                       /\ e = timeoutError timeout det)
  \/ (exists code det, In (CloseEvent code) events /\ nonzero code = true
                       /\ e = inspectorError EXECUTION_FAILED
                                ("Command exited with code " ++ code_toString code)
                                (Some det)).

(** The first close or error event of a run, with the events before it. *)
Fixpoint first_settling (events : list ChildEvent)
    : option (list ChildEvent * ChildEvent) :=
  match events with
  | [] => None
  | ev :: rest =>
      if settling ev then Some ([], ev)
      else match first_settling rest with
           | Some (between, s) => Some (ev :: between, s)
           | None => None
           end
  end.

(** The arguments of a call with the timeout given, and with it left out. *)
Definition withTimeout (v : JsonValue) (input : Record JsonValue)
    : Record JsonValue :=
  ("timeout_ms", v) :: input.

Definition withoutTimeout (input : Record JsonValue) : Record JsonValue :=
  filter (fun kv => negb (String.eqb (fst kv) "timeout_ms")) input.

(** The least a tool is called with: the target and the one field its own
    schema requires. *)
Definition minimalInput (n : ToolName) (s : string) : Record JsonValue :=
  match n with
  | mcpdev_inspector_call_tool =>
      [("target", JString s); ("tool_name", JString s)]
  | mcpdev_inspector_read_resource =>
      [("target", JString s); ("uri", JString s)]
  | mcpdev_inspector_get_prompt =>
      [("target", JString s); ("prompt_name", JString s)]
  | _ => [("target", JString s)]
  end.

(** The text the decoder hands to the parser. *)
Definition normalised (output : string) : string :=
  if truthy (trim output) then trim output else "{}".

(** Strings made of the one-byte white space characters only. *)
Fixpoint blank (s : string) : bool :=
  match s with
  | EmptyString => true
  | String c r => white1 c && blank r
  end.

(** The method each tool asks for. *)
Definition toolMethod (n : ToolName) : InspectorMethod :=
  match n with
  | mcpdev_inspector_list_tools => tools_list
  | mcpdev_inspector_call_tool => tools_call
  | mcpdev_inspector_list_resources => resources_list
  | mcpdev_inspector_read_resource => resources_read
  | mcpdev_inspector_list_prompts => prompts_list
  | mcpdev_inspector_get_prompt => prompts_get
  end.

Definition promptArgPair (kv : string * string) : list string :=
  ["--prompt-args"; fst kv ++ "=" ++ snd kv].

(** The flags that follow the method and the transport, by the parameters
    of the call. *)
Definition paramsFlags {n} (params : ToolParams n) : list string :=
  match params with
  | CallToolParams _ tool_name tool_args =>
      (["--tool-name"; tool_name] ++ flat_map toolArgPair tool_args)%list
  | ReadResourceParams _ uri => ["--uri"; uri]
  | GetPromptParams _ prompt_name prompt_args =>
      (["--prompt-name"; prompt_name] ++ flat_map promptArgPair prompt_args)%list
  | _ => []
  end.

(** The whole vector a handler has node run. *)
Definition handlerArgs (inspectorPath : string) {n} (params : ToolParams n)
    : list string :=
  ([inspectorPath; "--cli"; p_target (targetParams params);
    "--method"; method_text (toolMethod n)]
   ++ match p_transport (targetParams params) with
      | Some tr => ["--transport"; transport_text tr]
      | None => []
      end
   ++ paramsFlags params)%list.

(** The options every handler runs the command with. *)
Definition handlerOptions {n} (params : ToolParams n) : option ExecOptions :=
  Some {| cwd := None; opt_env := None;
          timeoutMs := Some (timeout_ms (targetParams params));
          shell := Some false |}.

(** A record of strings as the JSON object it was parsed from. *)
Definition stringObject (r : Record string) : JsonValue :=
  JObject (map (fun kv => (fst kv, JString (snd kv))) r).

(* ================================================================== *)
(** * Properties *)
(* ================================================================== *)

Unset Implicit Arguments.

Example formatError_sample :
  formatError (inspectorError EXECUTION_FAILED "Command exited with code 1" (Some "boom"))
  = "Error [EXECUTION_FAILED]: Command exited with code 1" ++ nl ++ "Details: boom".
Proof. reflexivity. Qed.

Example Number_toString_sample :
  Number_toString 60000 = "60000" /\ Number_toString 0 = "0" /\ Number_toString (-2) = "-2".
Proof. repeat split. Qed.

Example trim_sample :
  trim (" " ++ nl ++ "{}" ++ nl) = "{}" /\ trim (nl ++ "  ") = EmptyString
  /\ trim "a b " = "a b".
Proof. repeat split. Qed.

Example stringify_sample :
  JSON_stringify (JObject [("name", JString "get_weather");
                           ("arguments", JObject [("city", JString "Tokyo")])])
  = "{" ++ dquote ++ "name" ++ dquote ++ ":" ++ dquote ++ "get_weather" ++ dquote
    ++ "," ++ dquote ++ "arguments" ++ dquote ++ ":{" ++ dquote ++ "city" ++ dquote
    ++ ":" ++ dquote ++ "Tokyo" ++ dquote ++ "}}".
Proof. reflexivity. Qed.

Example stringify_pretty_sample :
  JSON_stringify_pretty (JObject [("tools", JArray [JNumber (JsInt 1); JArray []])])
  = "{" ++ nl ++ "  " ++ dquote ++ "tools" ++ dquote ++ ": [" ++ nl
    ++ "    1," ++ nl ++ "    []" ++ nl ++ "  ]" ++ nl ++ "}".
Proof. reflexivity. Qed.

(** ** Strings *)

Lemma append_assoc (a b c : string) : (a ++ b) ++ c = a ++ (b ++ c).
Proof. induction a as [|x a IH]; simpl; [reflexivity | now rewrite IH]. Qed.

Lemma append_empty_r (a : string) : a ++ EmptyString = a.
Proof. induction a as [|x a IH]; simpl; [reflexivity | now rewrite IH]. Qed.

Lemma append_cancel_l (a b c : string) : a ++ b = a ++ c -> b = c.
Proof.
  induction a as [|x a IH]; simpl; intros E; [exact E | ].
  injection E as E. now apply IH.
Qed.

Lemma append_not_self (a b : string) : b <> EmptyString -> a ++ b <> a.
Proof.
  intros N E. rewrite <- (append_empty_r a) in E at 2.
  apply append_cancel_l in E. now apply N.
Qed.

Lemma prefix_append (a b : string) : String.prefix a (a ++ b) = true.
Proof.
  induction a as [|x a IH]; simpl.
  - now destruct b.
  - destruct (ascii_dec x x) as [_|N]; [exact IH | now elim N].
Qed.

Lemma truthy_false (s : string) : truthy s = false -> s = EmptyString.
Proof. destruct s; simpl; [reflexivity | discriminate]. Qed.

(** ** The callbacks of execCommand *)

Section ExecFacts.

Variable command : string.
Variable timeout : Z.

Lemma run_app (a b : list ChildEvent) (st : ExecState) :
  run_events command timeout (a ++ b) st = run_events command timeout b (run_events command timeout a st).
Proof. apply fold_left_app. Qed.

Lemma run_cons (ev : ChildEvent) (events : list ChildEvent) (st : ExecState) :
  run_events command timeout (ev :: events) st = run_events command timeout events (on_event command timeout st ev).
Proof. reflexivity. Qed.

(** A settled promise stays as it is. *)
Lemma step_settled (st : ExecState) (ev : ChildEvent) r :
  settled st = Some r -> settled (on_event command timeout st ev) = Some r.
Proof.
  intros E. destruct ev as [d|d| |m|code]; simpl; try exact E.
  - destruct (timerArmed st); simpl; exact E.
  - unfold settle; simpl. now rewrite E.
  - destruct (timedOut st); [| destruct (negb _)];
      unfold settle; simpl; now rewrite E.
Qed.

Lemma run_settled (events : list ChildEvent) (st : ExecState) r :
  settled st = Some r -> settled (run_events command timeout events st) = Some r.
Proof.
  revert st. induction events as [|ev events IH]; intros st E; simpl.
  - exact E.
  - apply IH. now apply step_settled.
Qed.

(** Output events only add to the two buffers. *)
Lemma run_data (events : list ChildEvent) (st : ExecState) :
  data_only events = true ->
  stdout (run_events command timeout events st) = stdout st ++ stdout_of events
  /\ stderr (run_events command timeout events st) = stderr st ++ stderr_of events
  /\ timedOut (run_events command timeout events st) = timedOut st
  /\ timerArmed (run_events command timeout events st) = timerArmed st
  /\ killed (run_events command timeout events st) = killed st
  /\ settled (run_events command timeout events st) = settled st.
Proof.
  revert st. induction events as [|ev events IH]; intros st D.
  - simpl. now rewrite !append_empty_r.
  - simpl in D. apply andb_prop in D as [Dev D].
    destruct (IH (on_event command timeout st ev) D) as (A & B & C & E & F & G).
    change (run_events command timeout (ev :: events) st) with (run_events command timeout events (on_event command timeout st ev)).
    rewrite A, B, C, E, F, G.
    destruct ev; try discriminate Dev; simpl;
      rewrite ?append_assoc; repeat split; reflexivity.
Qed.

(** The close handler on a pending promise. *)
Lemma close_pending (st : ExecState) (code : option Z) :
  settled st = None ->
  settled (on_event command timeout st (CloseEvent code))
  = Some (if timedOut st then
            Err (ThrownInspectorError
                   (inspectorError TIMEOUT
                      ("Command timed out after " ++ Number_toString timeout ++ "ms")
                      (Some (stderr st))))
          else if nonzero code then
            Err (ThrownInspectorError
                   (inspectorError EXECUTION_FAILED
                      ("Command exited with code " ++ code_toString code)
                      (Some (or_else (stderr st) (stdout st)))))
          else Ok (stdout st)).
Proof.
  intros E. unfold nonzero. simpl.
  destruct (timedOut st); [| destruct (negb _)];
    unfold settle; simpl; now rewrite E.
Qed.

Lemma error_pending (st : ExecState) (msg : string) :
  settled st = None ->
  settled (on_event command timeout st (ErrorEvent msg))
  = Some (Err (ThrownInspectorError
                 (inspectorError SPAWN_FAILED
                    ("Failed to spawn command: " ++ command) (Some msg)))).
Proof. intros E. simpl. unfold settle; simpl. now rewrite E. Qed.

(** The timer callback on an armed timer. *)
Lemma timer_armed (st : ExecState) :
  timerArmed st = true ->
  timedOut (on_event command timeout st TimerFires) = true
  /\ killed (on_event command timeout st TimerFires) = (killed st ++ ["SIGTERM"])%list
  /\ settled (on_event command timeout st TimerFires) = settled st
  /\ stderr (on_event command timeout st TimerFires) = stderr st
  /\ stdout (on_event command timeout st TimerFires) = stdout st.
Proof. intros E. simpl. rewrite E. simpl. repeat split. Qed.

End ExecFacts.

Section TimedOut.

Variable command : string.
Variable timeout : Z.

Lemma timedOut_step (st : ExecState) (ev : ChildEvent) :
  timedOut st = true -> timedOut (on_event command timeout st ev) = true.
Proof.
  intros T. destruct ev as [d|d| |m|code]; simpl; try exact T.
  - now destruct (timerArmed st).
  - unfold settle; simpl. now destruct (settled st).
  - rewrite T. unfold settle; simpl. now destruct (settled st).
Qed.

Lemma flagged_step (st : ExecState) (ev : ChildEvent) :
  flagged st -> flagged (on_event command timeout st ev).
Proof.
  intros [T S]. split; [now apply timedOut_step |].
  destruct S as [S | (e & S & K)].
  - destruct ev as [d|d| |m|code].
    + left; exact S.
    + left; exact S.
    + left. simpl. now destruct (timerArmed st).
    + right. eexists. split; [now apply error_pending | right; reflexivity].
    + right. eexists. split.
      * rewrite (close_pending command timeout st code S), T.
        reflexivity.
      * left; reflexivity.
  - right. exists e. split; [now apply step_settled | exact K].
Qed.

Lemma flagged_run (events : list ChildEvent) (st : ExecState) :
  flagged st -> flagged (run_events command timeout events st).
Proof.
  revert st. induction events as [|ev events IH]; intros st F; simpl.
  - exact F.
  - apply IH. now apply flagged_step.
Qed.

Lemma flagged_quiet_step (st : ExecState) (ev : ChildEvent) :
  is_error_event ev = false -> flagged_quiet timeout st -> flagged_quiet timeout (on_event command timeout st ev).
Proof.
  intros N [T S]. split; [now apply timedOut_step |].
  destruct S as [S | (det & S)].
  - destruct ev as [d|d| |m|code]; try discriminate N.
    + left; exact S.
    + left; exact S.
    + left. simpl. now destruct (timerArmed st).
    + right. exists (stderr st).
      now rewrite (close_pending command timeout st code S), T.
  - right. exists det. now apply step_settled.
Qed.

Lemma flagged_quiet_run (events : list ChildEvent) (st : ExecState) :
  existsb is_error_event events = false ->
  flagged_quiet timeout st -> flagged_quiet timeout (run_events command timeout events st).
Proof.
  revert st. induction events as [|ev events IH]; intros st N F; simpl.
  - exact F.
  - simpl in N. apply orb_false_elim in N as [Nev N].
    apply IH; [exact N | now apply flagged_quiet_step].
Qed.

Lemma flagged_quiet_close (st : ExecState) (code : option Z) :
  flagged_quiet timeout st ->
  exists det, settled (on_event command timeout st (CloseEvent code)) = Some (Err (ThrownInspectorError (timeoutError timeout det))).
Proof.
  intros [T [S | (det & S)]].
  - exists (stderr st).
    now rewrite (close_pending command timeout st code S), T.
  - exists det. now apply step_settled.
Qed.

(** The state right after the timer fired on a run of output events. *)
Lemma after_timer (before : list ChildEvent) :
  data_only before = true ->
  let st := run_events command timeout (before ++ [TimerFires]) initial in
  timedOut st = true /\ settled st = None
  /\ killed st = ["SIGTERM"] /\ stderr st = stderr_of before
  /\ stdout st = stdout_of before /\ timerArmed st = false.
Proof.
  intros D st. subst st. rewrite run_app. simpl.
  destruct (run_data command timeout before initial D) as (A & B & C & E & F & G).
  rewrite E, A, B, F, G. simpl. repeat split.
Qed.

End TimedOut.

(** ** execCommand as a whole *)

Lemma result_spawned (command : string) (args : list string)
    (options : option ExecOptions) (events : list ChildEvent) :
  result (execCommand command args options (Spawned events))
  = fromPromise
      (settled (run_events command (timeout_of options) events initial)).
Proof. reflexivity. Qed.

Lemma signals_spawned (command : string) (args : list string)
    (options : option ExecOptions) (events : list ChildEvent) :
  signals (execCommand command args options (Spawned events))
  = killed (run_events command (timeout_of options) events initial).
Proof. reflexivity. Qed.

(** The promise after output events, one more event, and anything else. *)
Lemma settled_by (command : string) (timeout : Z)
    (before after : list ChildEvent) (ev : ChildEvent) r :
  settled (on_event command timeout
             (run_events command timeout before initial) ev) = Some r ->
  settled (run_events command timeout (before ++ ev :: after) initial) = Some r.
Proof.
  intros E. rewrite run_app. simpl. now apply run_settled.
Qed.

(** C4: a command that starts and closes before the timer fires resolves to
    the accumulated stdout, untouched, when the exit code is 0; it fails with
    EXECUTION_FAILED when the code is not 0, the details being the
    accumulated stderr if that is not empty and the accumulated stdout
    otherwise; a command that cannot be started fails with SPAWN_FAILED, the
    details being the text of the error. *)
Theorem execCommand_exit_outcomes
    (command : string) (args : list string) (options : option ExecOptions)
    (before after : list ChildEvent) (code : option Z) (name msg : string) :
  data_only before = true ->
  result (execCommand command args options
            (Spawned (before ++ CloseEvent (Some 0) :: after)))
  = Some (Ok (stdout_of before))
  /\ (nonzero code = true ->
      result (execCommand command args options
                (Spawned (before ++ CloseEvent code :: after)))
      = Some (Err (inspectorError EXECUTION_FAILED
                     ("Command exited with code " ++ code_toString code)
                     (Some (if truthy (stderr_of before)
                            then stderr_of before
                            else stdout_of before)))))
  /\ result (execCommand command args options
               (Spawned (before ++ ErrorEvent msg :: after)))
     = Some (Err (inspectorError SPAWN_FAILED
                    ("Failed to spawn command: " ++ command) (Some msg)))
  /\ result (execCommand command args options (SpawnThrew name msg))
     = Some (Err (inspectorError SPAWN_FAILED
                    "Unknown error during command execution"
                    (Some (Error_toString name msg)))).
Proof.
  intros D.
  destruct (run_data command (timeout_of options) before initial D)
    as (A & B & C & E & F & G).
  simpl in A, B, C, G.
  repeat split.
  - rewrite result_spawned.
    erewrite settled_by;
      [| rewrite close_pending by exact G; rewrite C, A; reflexivity].
    reflexivity.
  - intros NZ. rewrite result_spawned.
    erewrite settled_by;
      [| rewrite close_pending by exact G; rewrite C, NZ, A, B; reflexivity].
    reflexivity.
  - rewrite result_spawned.
    erewrite settled_by; [| rewrite error_pending by exact G; reflexivity].
    reflexivity.
Qed.

Lemma execCommand_exit_outcomes_witness :
  result (execCommand "node" ["cli.js"] None
            (Spawned [StdoutData " {} "; StderrData "warn"; CloseEvent (Some 0)]))
  = Some (Ok " {} ")
  /\ result (execCommand "node" ["cli.js"] None
               (Spawned [StdoutData "out"; CloseEvent (Some 1); StdoutData "late"]))
     = Some (Err (inspectorError EXECUTION_FAILED "Command exited with code 1"
                    (Some "out")))
  /\ result (execCommand "node" ["cli.js"] None
               (Spawned [ErrorEvent "spawn node ENOENT"; CloseEvent (Some (-2))]))
     = Some (Err (inspectorError SPAWN_FAILED "Failed to spawn command: node"
                    (Some "spawn node ENOENT"))).
Proof.
  split; [| split].
  - exact (proj1 (execCommand_exit_outcomes "node" ["cli.js"] None
                    [StdoutData " {} "; StderrData "warn"] [] None
                    EmptyString EmptyString eq_refl)).
  - exact (proj1 (proj2 (execCommand_exit_outcomes "node" ["cli.js"] None
                           [StdoutData "out"] [StdoutData "late"] (Some 1)
                           EmptyString EmptyString eq_refl)) eq_refl).
  - exact (proj1 (proj2 (proj2 (execCommand_exit_outcomes "node" ["cli.js"] None
                                  [] [CloseEvent (Some (-2))] None
                                  EmptyString "spawn node ENOENT" eq_refl)))).
Defined.

(** C3, as the claim words it, fails: right after the signal is sent no
    outcome is reported, and the details of the failure reported at the close
    event hold the stderr written after the signal as well. *)
Lemma timeout_not_reported_at_signal :
  signals (execCommand "node" [] None (Spawned [StderrData "a"; TimerFires]))
  = ["SIGTERM"]
  /\ result (execCommand "node" [] None (Spawned [StderrData "a"; TimerFires]))
     = None
  /\ result (execCommand "node" [] None
               (Spawned [StderrData "a"; TimerFires; StderrData "b";
                         CloseEvent None]))
     = Some (Err (inspectorError TIMEOUT "Command timed out after 30000ms"
                    (Some "ab"))).
Proof. repeat split. Qed.

(** C10, as the code has it: once the timer has fired on a running child,
    and no error event is delivered before the close event, the close handler
    rejects with TIMEOUT whatever the exit code is, 0 included; with or
    without an error event, no continuation of the run resolves the promise
    or rejects it with EXECUTION_FAILED: the outcome is pending, TIMEOUT, or
    SPAWN_FAILED. *)
Theorem execCommand_timed_out_wins
    (command : string) (args : list string) (options : option ExecOptions)
    (before between after : list ChildEvent) (code : option Z) :
  data_only before = true ->
  existsb is_error_event between = false ->
  (exists det,
      result (execCommand command args options
                (Spawned (before ++ TimerFires :: between
                          ++ CloseEvent code :: after)))
      = Some (Err (timeoutError (timeout_of options) det)))
  /\ (forall rest : list ChildEvent,
        match result (execCommand command args options
                        (Spawned (before ++ TimerFires :: rest))) with
        | Some (Ok _) => False
        | Some (Err e) => kind e = TIMEOUT \/ kind e = SPAWN_FAILED
        | None => True
        end).
Proof.
  intros D N.
  destruct (after_timer command (timeout_of options) before D)
    as (T & S & _).
  set (st := run_events command (timeout_of options) (before ++ [TimerFires]) initial)
    in *.
  assert (R : forall rest,
             run_events command (timeout_of options)
               (before ++ TimerFires :: rest) initial
             = run_events command (timeout_of options) rest st).
  { intros rest. subst st.
    change (before ++ TimerFires :: rest)%list
      with (before ++ [TimerFires] ++ rest)%list.
    now rewrite app_assoc, run_app. }
  split.
  - assert (Q : flagged_quiet (timeout_of options) st) by (split; [exact T | now left]).
    apply (flagged_quiet_run command _ between st N) in Q.
    destruct (flagged_quiet_close command _ _ code Q) as (det & C).
    exists det. rewrite result_spawned, R, run_app, run_cons.
    erewrite run_settled; [| exact C]. reflexivity.
  - intros rest. rewrite result_spawned, R.
    assert (F : flagged st) by (split; [exact T | now left]).
    apply (flagged_run command (timeout_of options) rest) in F.
    destruct F as [_ [F | (e & F & K)]]; rewrite F; simpl; [exact I | exact K].
Qed.

Lemma execCommand_timed_out_wins_witness :
  exists det,
    result (execCommand "node" [] None
              (Spawned [StdoutData "{}"; TimerFires; StdoutData "more";
                        CloseEvent (Some 0)]))
    = Some (Err (timeoutError 30000 det)).
Proof.
  exact (proj1 (execCommand_timed_out_wins "node" [] None
                  [StdoutData "{}"] [StdoutData "more"] [] (Some 0)
                  eq_refl eq_refl)).
Defined.

(** ** formatError *)

Lemma formatError_unfold (error : InspectorError) :
  formatError error
  = headline error
    ++ match details error with
       | Some d => if truthy d then nl ++ "Details: " ++ d else EmptyString
       | None => EmptyString
       end.
Proof.
  unfold formatError, headline.
  destruct (details error) as [d|]; [destruct (truthy d) |];
    rewrite ?append_empty_r, ?append_assoc; reflexivity.
Qed.

(** C8, as the code has it: [formatError] is a function from a failure to the
    string [Error [<kind>]: <message>], followed by a line feed and
    [Details: <details>] if and only if the details field is present and not
    the empty string. *)
Theorem formatError_details_line (error : InspectorError) :
  formatError error
  = "Error [" ++ kind_text (kind error) ++ "]: " ++ message error
    ++ match details error with
       | Some d => if truthy d then nl ++ "Details: " ++ d else EmptyString
       | None => EmptyString
       end
  /\ (forall d, details error = Some d -> d <> EmptyString ->
      formatError error = headline error ++ nl ++ "Details: " ++ d)
  /\ ((exists d, details error = Some d /\ d <> EmptyString)
      <-> formatError error <> headline error).
Proof.
  split; [| split].
  - rewrite formatError_unfold. unfold headline.
    now rewrite !append_assoc.
  - intros d E N. rewrite formatError_unfold, E.
    destruct d; [now elim N | reflexivity].
  - rewrite formatError_unfold. split.
    + intros (d & E & N). rewrite E.
      destruct d as [|c d]; [now elim N |].
      apply append_not_self. discriminate.
    + intros A. destruct (details error) as [d|].
      * exists d. split; [reflexivity |]. intros ->.
        apply A. apply append_empty_r.
      * elim A. apply append_empty_r.
Qed.

(** C8, as the claim words it, fails: the failure of a timed-out run whose
    child wrote nothing to stderr has its details field present, and the
    formatter writes no details line for it. *)
Lemma formatError_omits_empty_details :
  result (execCommand "node" [] None (Spawned [TimerFires; CloseEvent None]))
  = Some (Err (timeoutError 30000 EmptyString))
  /\ details (timeoutError 30000 EmptyString) = Some EmptyString
  /\ formatError (timeoutError 30000 EmptyString)
     = "Error [TIMEOUT]: Command timed out after 30000ms"
  /\ formatError_as_specified (timeoutError 30000 EmptyString)
     = "Error [TIMEOUT]: Command timed out after 30000ms" ++ nl ++ "Details: "
  /\ String.eqb (formatError (timeoutError 30000 EmptyString))
       (formatError_as_specified (timeoutError 30000 EmptyString))
     = false.
Proof. repeat split. Qed.

(** ** The result decoder *)

Lemma parseJson_unfold (rt : JsRuntime) (s : string) :
  parseJson s
  = match JSON_parse s with
    | Returns v => Ok v
    | Throws t =>
        Err (inspectorError PARSE_FAILED "Failed to parse JSON response"
               (Some (thrown_message t)))
    end.
Proof. reflexivity. Qed.

Lemma decodeOutput_unfold (rt : JsRuntime) (output : string) :
  decodeOutput output
  = parseJson (if truthy (trim output) then trim output else "{}").
Proof.
  unfold decodeOutput, or_else. now destruct (parseJson _).
Qed.

(** C2: the decoder trims the stdout text, puts the two characters of the
    empty object in its place when nothing is left, and parses; what the
    parser returns is the result as it is, and what the parser throws becomes
    a PARSE_FAILED failure whose details is the message of the parser. *)
Theorem decodeOutput_contract (rt : JsRuntime) (output : string) :
  (trim output = EmptyString -> decodeOutput output = parseJson "{}")
  /\ (trim output <> EmptyString -> decodeOutput output = parseJson (trim output))
  /\ (trim output = EmptyString -> JSON_parse "{}" = Returns (JObject []) ->
      decodeOutput output = Ok (JObject []))
  /\ (forall s v, JSON_parse s = Returns v -> parseJson s = Ok v)
  /\ (forall s name msg, JSON_parse s = Throws (ThrownError name msg) ->
      parseJson s
      = Err (inspectorError PARSE_FAILED "Failed to parse JSON response"
               (Some msg))).
Proof.
  repeat split.
  - intros E. now rewrite decodeOutput_unfold, E.
  - intros N. rewrite decodeOutput_unfold.
    destruct (trim output); [now elim N | reflexivity].
  - intros E P. rewrite decodeOutput_unfold, E.
    change (parseJson "{}" = Ok (JObject [])).
    now rewrite parseJson_unfold, P.
  - intros s v P. now rewrite parseJson_unfold, P.
  - intros s name msg P. now rewrite parseJson_unfold, P.
Qed.

Lemma decodeOutput_contract_witness :
  @decodeOutput sample_runtime (" " ++ nl) = Ok (JObject [])
  /\ @parseJson sample_runtime "not-json"
     = Err (inspectorError PARSE_FAILED "Failed to parse JSON response"
              (Some "Unexpected token in not-json")).
Proof.
  split.
  - exact (proj1 (proj2 (proj2 (decodeOutput_contract sample_runtime (" " ++ nl))))
             eq_refl eq_refl).
  - exact (proj2 (proj2 (proj2 (proj2
             (decodeOutput_contract sample_runtime EmptyString))))
             "not-json" "SyntaxError" "Unexpected token in not-json" eq_refl).
Defined.

(** ** The kinds of failure *)

Lemma clean_step (command : string) (timeout : Z) (st : ExecState)
    (ev : ChildEvent) :
  clean st -> clean (on_event command timeout st ev).
Proof.
  unfold clean. destruct (settled st) as [r|] eqn:S.
  - intros C. now rewrite (step_settled command timeout st ev r S).
  - intros _. destruct ev as [d|d| |m|code].
    + simpl. now rewrite S.
    + simpl. now rewrite S.
    + simpl. destruct (timerArmed st); simpl; now rewrite S.
    + rewrite (error_pending command timeout st m S).
      eexists; split; [reflexivity | left; reflexivity].
    + rewrite (close_pending command timeout st code S).
      destruct (timedOut st); [| destruct (nonzero code)].
      * eexists; split; [reflexivity | right; right; reflexivity].
      * eexists; split; [reflexivity | right; left; reflexivity].
      * exact I.
Qed.

Lemma clean_run (command : string) (timeout : Z) (events : list ChildEvent)
    (st : ExecState) :
  clean st -> clean (run_events command timeout events st).
Proof.
  revert st. induction events as [|ev events IH]; intros st C; simpl.
  - exact C.
  - apply IH. now apply clean_step.
Qed.

Lemma execCommand_kinds (command : string) (args : list string)
    (options : option ExecOptions) (child : ChildProcess) :
  match result (execCommand command args options child) with
  | Some (Err e) => raised_by_exec (kind e)
  | _ => True
  end.
Proof.
  destruct child as [name msg | events].
  - simpl. left; reflexivity.
  - rewrite result_spawned.
    assert (C : clean (run_events command (timeout_of options) events initial))
      by (apply clean_run; exact I).
    unfold clean in C.
    destruct (settled _) as [[out | t] |]; simpl; try exact I.
    destruct C as (e & -> & K). exact K.
Qed.

Lemma decodeOutput_kinds (rt : JsRuntime) (output : string) :
  match decodeOutput output with
  | Err e => kind e = PARSE_FAILED
  | Ok _ => True
  end.
Proof.
  rewrite decodeOutput_unfold, parseJson_unfold.
  now destruct (JSON_parse _).
Qed.

(** What [andThen] with the decoder leaves of a run of [execCommand]. *)
Lemma decoded_kinds (rt : JsRuntime) (run : ExecRun) :
  match result run with
  | Some (Err e) => raised_by_exec (kind e)
  | _ => True
  end ->
  match option_map (fun r => andThen r decodeOutput) (result run) with
  | Some (Err e) => raised_by_pipeline (kind e)
  | _ => True
  end.
Proof.
  destruct (result run) as [[out | e] |]; simpl; intros K; try exact I.
  - pose proof (decodeOutput_kinds rt out) as D.
    destruct (decodeOutput out); [exact I |].
    rewrite D. right; right; right; reflexivity.
  - unfold raised_by_pipeline. unfold raised_by_exec in K. tauto.
Qed.

Lemma handler_pipeline (rt : JsRuntime) (inspectorPath : string)
    (n : ToolName) (params : ToolParams n) (child : ChildProcess) :
  exists (m : InspectorMethod) (methodArgs : option (InspectorCli.MethodArgs m)),
    handler inspectorPath params child
    = awaitAndRespond
        (InspectorCli.runInspectorCli inspectorPath m
           (targetOf (targetParams params)) methodArgs
           (Some (timeout_ms (targetParams params))) child).
Proof.
  destruct params as [p | p name a | p | p uri | p | p name a]; simpl.
  - now exists tools_list, None.
  - now exists tools_call,
      (Some {| InspectorCli.tc_name := name;
               InspectorCli.tc_arguments := Some a |}).
  - now exists resources_list, None.
  - now exists resources_read, (Some {| InspectorCli.rr_uri := uri |}).
  - now exists prompts_list, None.
  - now exists prompts_get,
      (Some {| InspectorCli.pg_name := name;
               InspectorCli.pg_arguments := Some a |}).
Qed.

(** C9: whatever the input and whatever the child does, a failure of the
    pipeline has kind SPAWN_FAILED, EXECUTION_FAILED, TIMEOUT or
    PARSE_FAILED; INVALID_RESPONSE and CONNECTION_FAILED belong to the set of
    kinds and are never produced. *)
Theorem pipeline_failure_kinds (rt : JsRuntime) (inspectorPath : string) :
  (forall m t methodArgs timeout child,
      match outcome (InspectorCli.runInspectorCli inspectorPath m t methodArgs
                       timeout child) with
      | Some (Err e) => raised_by_pipeline (kind e)
      | _ => True
      end)
  /\ (forall m t methodArgs timeout child,
        match outcome (NpxInspectorCli.runInspectorCli m t methodArgs
                         timeout child) with
        | Some (Err e) => raised_by_pipeline (kind e)
        | _ => True
        end)
  /\ (forall n (params : ToolParams n) child,
        match outcome (pipeline (handler inspectorPath params child)) with
        | Some (Err e) =>
            raised_by_pipeline (kind e)
            /\ kind e <> INVALID_RESPONSE /\ kind e <> CONNECTION_FAILED
        | _ => True
        end)
  /\ ~ raised_by_pipeline INVALID_RESPONSE
  /\ ~ raised_by_pipeline CONNECTION_FAILED.
Proof.
  assert (A : forall m t methodArgs timeout child,
             match outcome (InspectorCli.runInspectorCli inspectorPath m t
                              methodArgs timeout child) with
             | Some (Err e) => raised_by_pipeline (kind e)
             | _ => True
             end).
  { intros. unfold InspectorCli.runInspectorCli. cbn [outcome].
    apply decoded_kinds, execCommand_kinds. }
  split; [exact A | split; [| split; [| split]]].
  - intros. unfold NpxInspectorCli.runInspectorCli. cbn [outcome].
    apply decoded_kinds, execCommand_kinds.
  - intros n params child.
    destruct (handler_pipeline rt inspectorPath n params child) as (m & ma & E).
    rewrite E. cbn [pipeline awaitAndRespond].
    specialize (A m (targetOf (targetParams params)) ma
                  (Some (timeout_ms (targetParams params))) child).
    destruct (outcome _) as [[v | e] |]; try exact I.
    split; [exact A |].
    destruct A as [K | [K | [K | K]]]; rewrite K; split; discriminate.
  - intros [K | [K | [K | K]]]; discriminate K.
  - intros [K | [K | [K | K]]]; discriminate K.
Qed.

(** Each of the four kinds is produced by some run. *)
Example four_kinds_produced :
  let t := {| target := "node server.js"; transport := None; env := None |} in
  let run := @InspectorCli.listTools "cli.js" sample_runtime t None in
  option_map (fun r => match r with Err e => Some (kind e) | Ok _ => None end)
    (outcome (run (SpawnThrew "TypeError" "bad argument")))
  = Some (Some SPAWN_FAILED)
  /\ option_map (fun r => match r with Err e => Some (kind e) | Ok _ => None end)
       (outcome (run (Spawned [StderrData "no"; CloseEvent (Some 1)])))
     = Some (Some EXECUTION_FAILED)
  /\ option_map (fun r => match r with Err e => Some (kind e) | Ok _ => None end)
       (outcome (run (Spawned [TimerFires; CloseEvent None])))
     = Some (Some TIMEOUT)
  /\ option_map (fun r => match r with Err e => Some (kind e) | Ok _ => None end)
       (outcome (run (Spawned [StdoutData "not-json"; CloseEvent (Some 0)])))
     = Some (Some PARSE_FAILED).
Proof. repeat split. Qed.

(** ** The handlers *)

Lemma formatError_prefix (error : InspectorError) :
  String.prefix "Error [" (formatError error) = true.
Proof.
  rewrite formatError_unfold. unfold headline.
  rewrite append_assoc. apply prefix_append.
Qed.

Lemma respond_unfold (r : Result JsonValue InspectorError) :
  respond r
  = match r with
    | Err error => errorResponse error
    | Ok value => valueResponse value
    end.
Proof. now destruct r. Qed.

(** A run of [execCommand] is settled as soon as a close or an error event
    was delivered, or [spawn] threw. *)
Lemma spawn_threw_result (command : string) (args : list string)
    (options : option ExecOptions) (name msg : string) :
  result (execCommand command args options (SpawnThrew name msg))
  = Some (Err (inspectorError SPAWN_FAILED
                 "Unknown error during command execution"
                 (Some (Error_toString name msg)))).
Proof. reflexivity. Qed.

(** The two responses on a stub that prints a tool list, and on one that
    exits with code 1. *)
Example handler_response_sample :
  let p := {| p_target := "node stub.js"; p_transport := Some stdio;
              timeout_ms := 60000 |} in
  returned (@handler "cli.js" sample_runtime _ (ListToolsParams p)
              (Spawned [StdoutData sample_tools_text; StdoutData nl;
                        CloseEvent (Some 0)]))
  = Some {| content :=
              [{| type := "text";
                  text := "{" ++ nl ++ "  " ++ dquote ++ "tools" ++ dquote
                          ++ ": []" ++ nl ++ "}" |}];
            isError := None |}
  /\ returned (@handler "cli.js" sample_runtime _ (ListToolsParams p)
                 (Spawned [StderrData "ECONNREFUSED"; CloseEvent (Some 1)]))
     = Some {| content :=
                 [{| type := "text";
                     text := "Error [EXECUTION_FAILED]: Command exited with code 1"
                             ++ nl ++ "Details: ECONNREFUSED" |}];
               isError := Some true |}.
Proof. split; reflexivity. Qed.

(** ** The argument builders *)

Lemma flat_map_pairs {A : Type} (f : string -> A -> list string)
    (r : Record A) :
  flat_map (fun kv => match kv with (k, v) => f k v end) r
  = flat_map (fun kv => f (fst kv) (snd kv)) r.
Proof.
  induction r as [|[k v] r IH]; simpl; [reflexivity | now rewrite IH].
Qed.

Lemma envFlags_target (t : TargetServer) :
  match env t with Some e => envFlags e | None => [] end = targetEnvFlags t.
Proof.
  unfold targetEnvFlags, envFlags. destruct (env t) as [e|]; [| reflexivity].
  apply (flat_map_pairs (fun k v => ["-e"; k ++ "=" ++ v])).
Qed.

Lemma toolArgFlags_pairs (toolArgs : Record JsonValue) :
  InspectorCli.toolArgFlags toolArgs = flat_map toolArgPair toolArgs.
Proof.
  induction toolArgs as [|[k v] r IH]; [reflexivity |].
  change (InspectorCli.toolArgFlags ((k, v) :: r))
    with (["--tool-arg"; (k ++ "=" ++ InspectorCli.toolArgText v)%string]
          ++ InspectorCli.toolArgFlags r)%list.
  change (flat_map toolArgPair ((k, v) :: r))
    with (toolArgPair (k, v) ++ flat_map toolArgPair r)%list.
  rewrite IH. f_equal. unfold toolArgPair, toolArgWord. cbn [fst snd].
  now destruct v.
Qed.

(** The pairs stand in the order of the entries. *)
Lemma toolArgPairs_order (toolArgs : Record JsonValue) (i : nat)
    (kv : string * JsonValue) :
  nth_error toolArgs i = Some kv ->
  nth_error (flat_map toolArgPair toolArgs) (2 * i) = Some "--tool-arg"
  /\ nth_error (flat_map toolArgPair toolArgs) (2 * i + 1) = Some (toolArgWord kv).
Proof.
  revert i. induction toolArgs as [|e r IH]; intros i E.
  - now destruct i.
  - destruct i as [|i].
    + simpl in E. injection E as ->. now split.
    + simpl in E. destruct (IH i E) as [A B].
      replace (2 * S i)%nat with (S (S (2 * i))) by lia.
      replace (S (S (2 * i)) + 1)%nat with (S (S (2 * i + 1))) by lia.
      now split.
Qed.

(** C5: for a tools/call request the current builder writes the target
    right after the script path and [--cli], as the first positional
    argument, and ends the vector with [--tool-name <name>] followed by one
    [--tool-arg key=value] per entry of the arguments, in the order of the
    entries, a value that is not a string being written as JSON; for the tool
    [get_weather] with the arguments [{city: "Tokyo"}] the vector ends with
    [--tool-name get_weather --tool-arg city=Tokyo]. *)
Theorem buildCliArgs_tool_call (inspectorPath : string) (t : TargetServer)
    (name : string) (toolArgs : Record JsonValue) :
  InspectorCli.buildCliArgs inspectorPath tools_call t
    (Some {| InspectorCli.tc_name := name;
             InspectorCli.tc_arguments := Some toolArgs |})
  = ([inspectorPath; "--cli"; target t; "--method"; "tools/call"]
     ++ transportFlags t ++ targetEnvFlags t
     ++ ["--tool-name"; name] ++ flat_map toolArgPair toolArgs)%list
  /\ (forall (rt : JsRuntime) timeout child,
        spawned (exec (InspectorCli.callTool inspectorPath t name
                         (Some toolArgs) timeout child))
        = {| spawn_command := "node";
             spawn_args :=
               InspectorCli.buildCliArgs inspectorPath tools_call t
                 (Some {| InspectorCli.tc_name := name;
                          InspectorCli.tc_arguments := Some toolArgs |});
             spawn_cwd := None; spawn_env := None; spawn_shell := false |})
  /\ (forall (i : nat) kv, nth_error toolArgs i = Some kv ->
      nth_error (flat_map toolArgPair toolArgs) (2 * i) = Some "--tool-arg"
      /\ nth_error (flat_map toolArgPair toolArgs) (2 * i + 1)
         = Some (toolArgWord kv))
  /\ InspectorCli.buildCliArgs inspectorPath tools_call t
       (Some {| InspectorCli.tc_name := "get_weather";
                InspectorCli.tc_arguments := Some [("city", JString "Tokyo")] |})
     = ([inspectorPath; "--cli"; target t; "--method"; "tools/call"]
        ++ transportFlags t ++ targetEnvFlags t
        ++ ["--tool-name"; "get_weather"; "--tool-arg"; "city=Tokyo"])%list.
Proof.
  assert (A : forall nm args,
             InspectorCli.buildCliArgs inspectorPath tools_call t
               (Some {| InspectorCli.tc_name := nm;
                        InspectorCli.tc_arguments := Some args |})
             = ([inspectorPath; "--cli"; target t; "--method"; "tools/call"]
                ++ transportFlags t ++ targetEnvFlags t
                ++ ["--tool-name"; nm] ++ flat_map toolArgPair args)%list).
  { intros nm args. unfold InspectorCli.buildCliArgs.
    rewrite envFlags_target. cbn [InspectorCli.methodFlags
      InspectorCli.tc_name InspectorCli.tc_arguments method_text].
    rewrite toolArgFlags_pairs. reflexivity. }
  split; [apply A | split; [| split]].
  - intros rt timeout child. now destruct child.
  - apply toolArgPairs_order.
  - rewrite A. reflexivity.
Qed.

(** Values that are not strings, as the builder writes them. *)
Example buildCliArgs_tool_call_sample :
  InspectorCli.buildCliArgs "cli.js" tools_call
    {| target := "node server.js"; transport := Some stdio;
       env := Some [("KEY", "v")] |}
    (Some {| InspectorCli.tc_name := "calculator";
             InspectorCli.tc_arguments :=
               Some [("a", JNumber (JsInt 1)); ("op", JString "add");
                     ("deep", JObject [("on", JBool true)])] |})
  = ["cli.js"; "--cli"; "node server.js"; "--method"; "tools/call";
     "--transport"; "stdio"; "-e"; "KEY=v";
     "--tool-name"; "calculator";
     "--tool-arg"; "a=1"; "--tool-arg"; "op=add";
     "--tool-arg"; "deep={" ++ dquote ++ "on" ++ dquote ++ ":true}"].
Proof. reflexivity. Qed.

Lemma last_snoc {A : Type} (l : list A) (x d : A) : last (l ++ [x]) d = x.
Proof.
  induction l as [|y l IH]; [reflexivity |].
  simpl. destruct (l ++ [x])%list eqn:E; [| exact IH].
  now destruct l.
Qed.

(** C6: the earlier builder writes the method arguments, when there are
    any, as the one pair [--json <object>], and the target as the last
    element of the vector, after the package name, [--cli], the method, the
    transport, the [-e] pairs and the JSON pair. *)
Theorem npx_buildCliArgs_shape (m : InspectorMethod) (t : TargetServer)
    (methodArgs : option (Record JsonValue)) :
  NpxInspectorCli.buildCliArgs m t methodArgs
  = (["@modelcontextprotocol/inspector"; "--cli"; "--method"; method_text m]
     ++ transportFlags t ++ targetEnvFlags t
     ++ jsonPair methodArgs ++ [target t])%list
  /\ last (NpxInspectorCli.buildCliArgs m t methodArgs) EmptyString = target t
  /\ (forall (rt : JsRuntime) name toolArgs timeout child,
        spawn_args (spawned (exec (NpxInspectorCli.callTool t name
                                     (Some toolArgs) timeout child)))
        = (["@modelcontextprotocol/inspector"; "--cli"; "--method"; "tools/call"]
           ++ transportFlags t ++ targetEnvFlags t
           ++ ["--json";
               JSON_stringify (JObject [("name", JString name);
                                        ("arguments", JObject toolArgs)]);
               target t])%list)
  /\ (forall (rt : JsRuntime) uri timeout child,
        spawn_args (spawned (exec (NpxInspectorCli.readResource t uri
                                     timeout child)))
        = (["@modelcontextprotocol/inspector"; "--cli"; "--method";
            "resources/read"]
           ++ transportFlags t ++ targetEnvFlags t
           ++ ["--json"; JSON_stringify (JObject [("uri", JString uri)]);
               target t])%list)
  /\ (forall (rt : JsRuntime) timeout child,
        spawn_args (spawned (exec (NpxInspectorCli.listTools t timeout child)))
        = (["@modelcontextprotocol/inspector"; "--cli"; "--method"; "tools/list"]
           ++ transportFlags t ++ targetEnvFlags t ++ [target t])%list).
Proof.
  assert (A : forall m' ma,
             NpxInspectorCli.buildCliArgs m' t ma
             = (["@modelcontextprotocol/inspector"; "--cli"; "--method";
                 method_text m']
                ++ transportFlags t ++ targetEnvFlags t
                ++ jsonPair ma ++ [target t])%list).
  { intros m' ma. unfold NpxInspectorCli.buildCliArgs.
    rewrite envFlags_target. unfold jsonPair, transportFlags.
    destruct ma as [[|entry entries]|]; reflexivity. }
  split; [apply A | split; [| split; [| split]]].
  - rewrite A.
    rewrite !app_assoc. apply last_snoc.
  - intros rt name toolArgs timeout child.
    unfold NpxInspectorCli.callTool, NpxInspectorCli.runInspectorCli.
    cbn [exec]. destruct child; cbn [execCommand spawned spawnCall_of spawn_args];
      rewrite A; reflexivity.
  - intros rt uri timeout child.
    unfold NpxInspectorCli.readResource, NpxInspectorCli.runInspectorCli.
    cbn [exec]. destruct child; cbn [execCommand spawned spawnCall_of spawn_args];
      rewrite A; reflexivity.
  - intros rt timeout child.
    unfold NpxInspectorCli.listTools, NpxInspectorCli.runInspectorCli.
    cbn [exec]. destruct child; cbn [execCommand spawned spawnCall_of spawn_args];
      rewrite A; reflexivity.
Qed.

(** The vector of the earlier revision for the weather call. *)
Example npx_buildCliArgs_sample :
  NpxInspectorCli.buildCliArgs tools_call
    {| target := "node server.js"; transport := Some stdio;
       env := Some [("KEY", "v")] |}
    (Some [("name", JString "get_weather");
           ("arguments", JObject [("city", JString "Tokyo")])])
  = ["@modelcontextprotocol/inspector"; "--cli"; "--method"; "tools/call";
     "--transport"; "stdio"; "-e"; "KEY=v"; "--json";
     "{" ++ dquote ++ "name" ++ dquote ++ ":" ++ dquote ++ "get_weather" ++ dquote
     ++ "," ++ dquote ++ "arguments" ++ dquote ++ ":{" ++ dquote ++ "city"
     ++ dquote ++ ":" ++ dquote ++ "Tokyo" ++ dquote ++ "}}";
     "node server.js"].
Proof. reflexivity. Qed.

(** ** The timeout *)

Lemma timeoutSchema_ok (path : string) (v : option JsonValue) (ms : Z) :
  timeoutSchema path v = Ok ms ->
  match v with
  | None => ms = 60000
  | Some w => w = JNumber (JsInt ms) /\ 1000 <= ms <= 300000
  end.
Proof.
  destruct v as [w|]; simpl.
  - destruct w as [| b | [z | txt] | s | items | entries]; try discriminate.
    destruct (1000 <=? z) eqn:L; [| discriminate].
    destruct (z <=? 300000) eqn:U; [| discriminate].
    simpl. intros E. injection E as <-.
    apply Z.leb_le in L. apply Z.leb_le in U. now repeat split.
  - intros E. now injection E as <-.
Qed.

Lemma TargetServerSchema_timeout (input : Record JsonValue) (p : TargetParams) :
  TargetServerSchema input = Ok p ->
  timeoutSchema "timeout_ms" (lookup "timeout_ms" input) = Ok (timeout_ms p).
Proof.
  unfold TargetServerSchema.
  destruct (nonEmptyString _ _) as [t|]; [| discriminate]. cbn [andThen].
  destruct (TransportSchema _ _) as [tr|]; [| discriminate]. cbn [andThen].
  destruct (timeoutSchema _ _) as [ms|]; [| discriminate]. cbn [andThen].
  intros E. now injection E as <-.
Qed.

Lemma inputSchema_target (n : ToolName) (input : Record JsonValue)
    (params : ToolParams n) :
  inputSchema n input = Ok params ->
  TargetServerSchema input = Ok (targetParams params).
Proof.
  destruct n; cbn [inputSchema];
    destruct (TargetServerSchema input) as [p|]; try discriminate;
    cbn [andThen].
  - intros E. now injection E as <-.
  - destruct (nonEmptyString _ _); [| discriminate]. cbn [andThen].
    destruct (unknownRecordSchema _ _); [| discriminate]. cbn [andThen].
    intros E. now injection E as <-.
  - intros E. now injection E as <-.
  - destruct (nonEmptyString _ _); [| discriminate]. cbn [andThen].
    intros E. now injection E as <-.
  - intros E. now injection E as <-.
  - destruct (nonEmptyString _ _); [| discriminate]. cbn [andThen].
    destruct (stringRecordSchema _ _); [| discriminate]. cbn [andThen].
    intros E. now injection E as <-.
Qed.

Lemma handler_timerDelay (rt : JsRuntime) (inspectorPath : string)
    (n : ToolName) (params : ToolParams n) (child : ChildProcess) :
  timerDelay (exec (pipeline (handler inspectorPath params child)))
  = timeout_ms (targetParams params).
Proof.
  destruct (handler_pipeline rt inspectorPath n params child) as (m & ma & E).
  rewrite E. now destruct child.
Qed.

(* ================================================================== *)
(** * Further properties *)
(* ================================================================== *)

(** ** What a run of execCommand keeps *)

Lemma coherent_initial : coherent initial.
Proof.
  unfold coherent, initial; simpl.
  split; [intros N; now elim N | split; [discriminate | now split]].
Qed.

Lemma coherent_step (command : string) (timeout : Z) (st : ExecState)
    (ev : ChildEvent) :
  coherent st -> coherent (on_event command timeout st ev).
Proof.
  destruct st as [so se tout armed k s].
  unfold coherent, on_event, settle, clearTimeout; simpl.
  destruct ev as [d | d | | msg | code]; simpl;
    try (destruct (negb match code with Some 0 => true | _ => false end));
    destruct armed, tout, s as [[out | t] |]; simpl;
    intros (A & B & C & D);
    try (exfalso; assert (true = false) by (apply A; discriminate); discriminate);
    try (exfalso; destruct (B eq_refl); discriminate);
    try (rewrite (C eq_refl) in * );
    try (destruct (B eq_refl) as [_ ->]);
    try (split; [intros; reflexivity |
         split; [intros; (split; reflexivity) || discriminate |
         split; [intros; reflexivity || discriminate | ]]]);
    try exact I; try reflexivity; try exact D;
    try (eexists; split; [reflexivity | split; intros; reflexivity || discriminate]).
  all: try (split; [intros N; now elim N | split; [discriminate | now split]]).
Qed.

Lemma coherent_run (command : string) (timeout : Z) (events : list ChildEvent)
    (st : ExecState) :
  coherent st -> coherent (run_events command timeout events st).
Proof.
  revert st. induction events as [|ev events IH]; intros st C; simpl.
  - exact C.
  - apply IH. now apply coherent_step.
Qed.

(** With the timer disarmed, no event sends a signal or sets the flag. *)
Lemma disarmed_step (command : string) (timeout : Z) (st : ExecState)
    (ev : ChildEvent) :
  timerArmed st = false ->
  timerArmed (on_event command timeout st ev) = false
  /\ killed (on_event command timeout st ev) = killed st
  /\ timedOut (on_event command timeout st ev) = timedOut st.
Proof.
  intros A. destruct ev as [d | d | | msg | code]; simpl.
  - now repeat split.
  - now repeat split.
  - rewrite A. now repeat split.
  - unfold settle; simpl. destruct (settled st); now repeat split.
  - destruct (timedOut st) eqn:T; [| destruct (negb _)];
      unfold settle; simpl; destruct (settled st); simpl;
      rewrite ?T; now repeat split.
Qed.

Lemma disarmed_run (command : string) (timeout : Z) (events : list ChildEvent)
    (st : ExecState) :
  timerArmed st = false ->
  killed (run_events command timeout events st) = killed st
  /\ timedOut (run_events command timeout events st) = timedOut st.
Proof.
  revert st. induction events as [|ev events IH]; intros st A.
  - now split.
  - destruct (disarmed_step command timeout st ev A) as (A' & K & T).
    rewrite run_cons. destruct (IH _ A') as [K' T'].
    now rewrite K', T', K, T.
Qed.

(** A settling event settles, whatever the state. *)
Lemma settling_step (command : string) (timeout : Z) (st : ExecState)
    (ev : ChildEvent) :
  settling ev = true ->
  exists r, settled (on_event command timeout st ev) = Some r
            /\ timerArmed (on_event command timeout st ev) = false.
Proof.
  intros S. destruct ev as [d | d | | msg | code]; try discriminate S; simpl.
  - unfold settle; simpl.
    destruct (settled st) as [r|] eqn:E; simpl; rewrite ?E; eexists; now split.
  - destruct (timedOut st); [| destruct (negb _)];
      unfold settle; simpl;
      destruct (settled st) as [r|] eqn:E; simpl; rewrite ?E; eexists; now split.
Qed.

Lemma quiet_step (command : string) (timeout : Z) (st : ExecState)
    (ev : ChildEvent) :
  settling ev = false ->
  settled (on_event command timeout st ev) = settled st.
Proof.
  intros S. destruct ev as [d | d | | msg | code]; try discriminate S; simpl;
    try reflexivity.
  now destruct (timerArmed st).
Qed.

Lemma quiet_run (command : string) (timeout : Z) (events : list ChildEvent)
    (st : ExecState) :
  existsb settling events = false ->
  settled (run_events command timeout events st) = settled st.
Proof.
  revert st. induction events as [|ev events IH]; intros st Q.
  - reflexivity.
  - simpl in Q. apply orb_false_elim in Q as [Qev Q].
    rewrite run_cons, (IH _ Q). now apply quiet_step.
Qed.

Lemma settling_run (command : string) (timeout : Z) (events : list ChildEvent)
    (st : ExecState) :
  existsb settling events = true ->
  exists r, settled (run_events command timeout events st) = Some r.
Proof.
  revert st. induction events as [|ev events IH]; intros st Q.
  - discriminate Q.
  - rewrite run_cons. simpl in Q. destruct (settling ev) eqn:S.
    + destruct (settling_step command timeout st ev S) as (r & E & _).
      exists r. now apply run_settled.
    + now apply IH.
Qed.

Lemma fromPromise_none (p : option (Result string JsThrown)) :
  fromPromise p = None <-> p = None.
Proof.
  destruct p as [[out | t] |]; simpl; split; intros E;
    reflexivity || discriminate E.
Qed.

Lemma fromPromise_some (p : option (Result string JsThrown)) r :
  fromPromise p = Some r -> exists r', p = Some r'.
Proof.
  destruct p as [r' |]; [now exists r' | discriminate].
Qed.

(** X2: a spawned command is pending exactly as long as neither a close
    event nor an error event has been delivered; output and the timer alone
    never settle it. *)
Theorem execCommand_pending_iff (command : string) (args : list string)
    (options : option ExecOptions) (events : list ChildEvent) :
  result (execCommand command args options (Spawned events)) = None
  <-> existsb settling events = false.
Proof.
  rewrite result_spawned, fromPromise_none. split.
  - intros P. destruct (existsb settling events) eqn:Q; [| reflexivity].
    destruct (settling_run command (timeout_of options) events initial Q)
      as (r & E).
    rewrite E in P. discriminate P.
  - intros Q. now rewrite quiet_run.
Qed.

(** X1: the first settling event decides: once a run has a result, no
    further event changes the result or sends a signal. *)
Theorem execCommand_settles_once (command : string) (args : list string)
    (options : option ExecOptions) (events more : list ChildEvent)
    (r : Result string InspectorError) :
  result (execCommand command args options (Spawned events)) = Some r ->
  result (execCommand command args options (Spawned (events ++ more))) = Some r
  /\ signals (execCommand command args options (Spawned (events ++ more)))
     = signals (execCommand command args options (Spawned events)).
Proof.
  rewrite !result_spawned, !signals_spawned, run_app.
  intros E. destruct (fromPromise_some _ _ E) as (r' & S). split.
  - now rewrite (run_settled _ _ more _ r' S), <- S.
  - assert (C : coherent (run_events command (timeout_of options) events initial))
      by (apply coherent_run, coherent_initial).
    destruct C as (A & _).
    apply (disarmed_run command (timeout_of options) more).
    apply A. rewrite S. discriminate.
Qed.

Lemma execCommand_settles_once_witness :
  result (execCommand "node" [] None
            (Spawned ([StdoutData "{}"; CloseEvent (Some 0)]
                      ++ [TimerFires; ErrorEvent "late"; CloseEvent (Some 1)])))
  = Some (Ok "{}")
  /\ signals (execCommand "node" [] None
                (Spawned ([StdoutData "{}"; CloseEvent (Some 0)]
                          ++ [TimerFires; ErrorEvent "late"; CloseEvent (Some 1)])))
     = signals (execCommand "node" [] None
                  (Spawned [StdoutData "{}"; CloseEvent (Some 0)])).
Proof.
  exact (execCommand_settles_once "node" [] None
           [StdoutData "{}"; CloseEvent (Some 0)]
           [TimerFires; ErrorEvent "late"; CloseEvent (Some 1)]
           (Ok "{}") eq_refl).
Defined.


(** ** The failures of a spawned command *)

Lemma shaped_cons (command : string) (timeout : Z) (ev : ChildEvent)
    (events : list ChildEvent) (e : InspectorError) :
  shaped command timeout events e -> shaped command timeout (ev :: events) e.
Proof.
  intros [(msg & I & E) | [(code & det & I & E) | (code & det & I & N & E)]].
  - left. exists msg. split; [now right | exact E].
  - right; left. exists code, det. split; [now right | exact E].
  - right; right. exists code, det. repeat split; [now right | exact N | exact E].
Qed.

Lemma shaped_step (command : string) (timeout : Z) (st : ExecState)
    (ev : ChildEvent) (events : list ChildEvent) (t : JsThrown) :
  settled (on_event command timeout st ev) = Some (Err t) ->
  settled st = Some (Err t)
  \/ exists e, t = ThrownInspectorError e
               /\ shaped command timeout (ev :: events) e.
Proof.
  destruct (settled st) as [r|] eqn:S.
  - rewrite (step_settled command timeout st ev r S). now left.
  - intros E. right. destruct ev as [d | d | | msg | code].
    + simpl in E. congruence.
    + simpl in E. congruence.
    + simpl in E. destruct (timerArmed st); simpl in E; congruence.
    + rewrite (error_pending command timeout st msg S) in E.
      injection E as <-. eexists. split; [reflexivity |].
      left. exists msg. split; [now left | reflexivity].
    + rewrite (close_pending command timeout st code S) in E.
      destruct (timedOut st); [| destruct (nonzero code) eqn:N];
        try discriminate E; injection E as <-;
        (eexists; split; [reflexivity |]).
      * right; left. exists code, (stderr st). split; [now left | reflexivity].
      * right; right. exists code, (or_else (stderr st) (stdout st)).
        repeat split; [now left | exact N].
Qed.

Lemma shaped_run (command : string) (timeout : Z) (events : list ChildEvent)
    (st : ExecState) (t : JsThrown) :
  settled (run_events command timeout events st) = Some (Err t) ->
  settled st = Some (Err t)
  \/ exists e, t = ThrownInspectorError e /\ shaped command timeout events e.
Proof.
  revert st. induction events as [|ev events IH]; intros st E.
  - now left.
  - rewrite run_cons in E. destruct (IH _ E) as [E' | (e & -> & Sh)].
    + apply (shaped_step command timeout st ev events t E').
    + right. exists e. split; [reflexivity | now apply shaped_cons].
Qed.

(** X5: every failure of a spawned command is one of three, each traced to
    an event that was delivered: SPAWN_FAILED naming the command, with the
    message of an error event; TIMEOUT naming the timeout in force, after a
    close event; EXECUTION_FAILED naming the exit code of a close event whose
    code is not 0.  The fallback of the error mapper is never taken. *)
Theorem execCommand_failure_shapes (command : string) (args : list string)
    (options : option ExecOptions) (events : list ChildEvent) :
  match result (execCommand command args options (Spawned events)) with
  | Some (Err e) => shaped command (timeout_of options) events e
  | _ => True
  end.
Proof.
  rewrite result_spawned.
  destruct (settled _) as [[out | t] |] eqn:E; simpl; try exact I.
  destruct (shaped_run command (timeout_of options) events initial t E)
    as [E' | (e & -> & Sh)]; [discriminate E' | exact Sh].
Qed.

Lemma shaped_details (command : string) (timeout : Z)
    (events : list ChildEvent) (e : InspectorError) :
  shaped command timeout events e -> exists d, details e = Some d.
Proof.
  intros [(msg & _ & ->) | [(code & det & _ & ->) | (code & det & _ & _ & ->)]];
    eexists; reflexivity.
Qed.

Lemma execCommand_details (command : string) (args : list string)
    (options : option ExecOptions) (child : ChildProcess) :
  match result (execCommand command args options child) with
  | Some (Err e) => exists d, details e = Some d
  | _ => True
  end.
Proof.
  destruct child as [name msg | events].
  - simpl. eexists; reflexivity.
  - rewrite result_spawned.
    destruct (settled _) as [[out | t] |] eqn:E; simpl; try exact I.
    destruct (shaped_run command (timeout_of options) events initial t E)
      as [E' | (e & -> & Sh)]; [discriminate E' |].
    simpl. now apply (shaped_details command (timeout_of options) events).
Qed.

Lemma decoded_details (rt : JsRuntime) (run : ExecRun) :
  match result run with
  | Some (Err e) => exists d, details e = Some d
  | _ => True
  end ->
  match option_map (fun r => andThen r decodeOutput) (result run) with
  | Some (Err e) => exists d, details e = Some d
  | _ => True
  end.
Proof.
  destruct (result run) as [[out | e] |]; simpl; intros K; try exact I.
  - rewrite decodeOutput_unfold, parseJson_unfold.
    destruct (JSON_parse _); [exact I | eexists; reflexivity].
  - exact K.
Qed.

(** X6: every failure the pipeline produces carries a details string, in
    both revisions and for every handler; the field is never left out (it may
    hold the empty string). *)
Theorem pipeline_failure_has_details (rt : JsRuntime) (inspectorPath : string) :
  (forall m t methodArgs timeout child,
      match outcome (InspectorCli.runInspectorCli inspectorPath m t methodArgs
                       timeout child) with
      | Some (Err e) => exists d, details e = Some d
      | _ => True
      end)
  /\ (forall m t methodArgs timeout child,
        match outcome (NpxInspectorCli.runInspectorCli m t methodArgs
                         timeout child) with
        | Some (Err e) => exists d, details e = Some d
        | _ => True
        end)
  /\ (forall n (params : ToolParams n) child,
        match outcome (pipeline (handler inspectorPath params child)) with
        | Some (Err e) => exists d, details e = Some d
        | _ => True
        end).
Proof.
  assert (A : forall m t methodArgs timeout child,
             match outcome (InspectorCli.runInspectorCli inspectorPath m t
                              methodArgs timeout child) with
             | Some (Err e) => exists d, details e = Some d
             | _ => True
             end).
  { intros. unfold InspectorCli.runInspectorCli. cbn [outcome].
    apply decoded_details, execCommand_details. }
  split; [exact A | split].
  - intros. unfold NpxInspectorCli.runInspectorCli. cbn [outcome].
    apply decoded_details, execCommand_details.
  - intros n params child.
    destruct (handler_pipeline rt inspectorPath n params child) as (m & ma & E).
    rewrite E. cbn [pipeline awaitAndRespond]. apply A.
Qed.

(** ** From the child to the response *)

Lemma closed_result (command : string) (args : list string)
    (options : option ExecOptions) (before after : list ChildEvent)
    (code : option Z) :
  data_only before = true ->
  result (execCommand command args options
            (Spawned (before ++ CloseEvent code :: after)))
  = Some (if nonzero code
          then Err (inspectorError EXECUTION_FAILED
                      ("Command exited with code " ++ code_toString code)
                      (Some (or_else (stderr_of before) (stdout_of before))))
          else Ok (stdout_of before)).
Proof.
  intros D.
  destruct (run_data command (timeout_of options) before initial D)
    as (A & B & C & _ & _ & G).
  simpl in A, B, C, G. rewrite result_spawned.
  erewrite settled_by;
    [| rewrite close_pending by exact G; rewrite C, A, B; reflexivity].
  now destruct (nonzero code).
Qed.

Lemma errored_result (command : string) (args : list string)
    (options : option ExecOptions) (before after : list ChildEvent)
    (msg : string) :
  data_only before = true ->
  result (execCommand command args options
            (Spawned (before ++ ErrorEvent msg :: after)))
  = Some (Err (inspectorError SPAWN_FAILED
                 ("Failed to spawn command: " ++ command) (Some msg))).
Proof.
  intros D.
  destruct (run_data command (timeout_of options) before initial D)
    as (_ & _ & _ & _ & _ & G).
  simpl in G. rewrite result_spawned.
  erewrite settled_by; [| rewrite error_pending by exact G; reflexivity].
  reflexivity.
Qed.

Lemma promptArgFlags_pairs (promptArgs : Record string) :
  InspectorCli.promptArgFlags promptArgs = flat_map promptArgPair promptArgs.
Proof.
  unfold InspectorCli.promptArgFlags.
  apply (flat_map_pairs (fun k v => ["--prompt-args"; k ++ "=" ++ v])).
Qed.

Lemma handler_unfold (rt : JsRuntime) (inspectorPath : string)
    (n : ToolName) (params : ToolParams n) (child : ChildProcess) :
  handler inspectorPath params child
  = awaitAndRespond
      {| exec := execCommand "node" (handlerArgs inspectorPath params)
                   (handlerOptions params) child;
         outcome :=
           option_map (fun r => andThen r decodeOutput)
             (result (execCommand "node" (handlerArgs inspectorPath params)
                        (handlerOptions params) child)) |}.
Proof.
  destruct params as [p | p name a | p | p uri | p | p name a];
    cbn [handler]; unfold handlerArgs, handlerOptions;
    unfold InspectorCli.listTools, InspectorCli.callTool,
      InspectorCli.listResources, InspectorCli.readResource,
      InspectorCli.listPrompts, InspectorCli.getPrompt,
      InspectorCli.runInspectorCli, InspectorCli.buildCliArgs, targetOf;
    cbn [target transport env InspectorCli.methodFlags targetParams
         paramsFlags toolMethod InspectorCli.tc_name InspectorCli.tc_arguments
         InspectorCli.pg_name InspectorCli.pg_arguments InspectorCli.rr_uri];
    rewrite ?toolArgFlags_pairs, ?promptArgFlags_pairs;
    destruct (p_transport p); reflexivity.
Qed.

Lemma handler_returned (rt : JsRuntime) (inspectorPath : string)
    (n : ToolName) (params : ToolParams n) (child : ChildProcess) :
  returned (handler inspectorPath params child)
  = option_map (fun r => respond (andThen r decodeOutput))
      (result (execCommand "node" (handlerArgs inspectorPath params)
                 (handlerOptions params) child)).
Proof.
  rewrite handler_unfold. cbn [returned awaitAndRespond outcome].
  now destruct (result _).
Qed.

(** X11: every handler has [node] run, with the shell off and no working
    directory or environment of its own, the script followed by [--cli], the
    target as one argument, [--method] with the method of the tool, the
    transport if one was given, and the flags of the tool; no [-e] pair is
    ever written, the handlers pass no environment on. *)
Theorem handler_spawn_call (rt : JsRuntime) (inspectorPath : string)
    (n : ToolName) (params : ToolParams n) (child : ChildProcess) :
  spawned (exec (pipeline (handler inspectorPath params child)))
  = {| spawn_command := "node";
       spawn_args :=
         ([inspectorPath; "--cli"; p_target (targetParams params);
           "--method"; method_text (toolMethod n)]
          ++ match p_transport (targetParams params) with
             | Some tr => ["--transport"; transport_text tr]
             | None => []
             end
          ++ paramsFlags params)%list;
       spawn_cwd := None; spawn_env := None; spawn_shell := false |}
  /\ timerDelay (exec (pipeline (handler inspectorPath params child)))
     = timeout_ms (targetParams params).
Proof.
  rewrite handler_unfold. cbn [pipeline awaitAndRespond exec].
  now destruct child.
Qed.

(** X7: the pipeline yields a value exactly when the command resolved and
    the parser returned that value on the trimmed stdout (or on the empty
    object text, when nothing is left of it); this holds in both revisions. *)
Theorem pipeline_success_iff (rt : JsRuntime) (inspectorPath : string)
    (m : InspectorMethod) (t : TargetServer) (timeout : option Z)
    (child : ChildProcess) (v : JsonValue) :
  (forall methodArgs,
      outcome (InspectorCli.runInspectorCli inspectorPath m t methodArgs
                 timeout child) = Some (Ok v)
      <-> exists out,
          result (exec (InspectorCli.runInspectorCli inspectorPath m t
                          methodArgs timeout child)) = Some (Ok out)
          /\ JSON_parse (normalised out) = Returns v)
  /\ (forall methodArgs,
        outcome (NpxInspectorCli.runInspectorCli m t methodArgs timeout child)
        = Some (Ok v)
        <-> exists out,
            result (exec (NpxInspectorCli.runInspectorCli m t methodArgs
                            timeout child)) = Some (Ok out)
            /\ JSON_parse (normalised out) = Returns v).
Proof.
  assert (A : forall run : ExecRun,
             option_map (fun r => andThen r decodeOutput) (result run)
             = Some (Ok v)
             <-> exists out, result run = Some (Ok out)
                             /\ JSON_parse (normalised out) = Returns v).
  { intros run. destruct (result run) as [[out | e] |]; simpl.
    - rewrite decodeOutput_unfold, parseJson_unfold. fold (normalised out).
      split.
      + intros E. exists out. split; [reflexivity |].
        destruct (JSON_parse (normalised out)); [| discriminate E].
        now injection E as ->.
      + intros (out' & E & P). injection E as <-. now rewrite P.
    - split; [discriminate | intros (out & E & _); discriminate E].
    - split; [discriminate | intros (out & E & _); discriminate E]. }
  split; intros methodArgs.
  - unfold InspectorCli.runInspectorCli. cbn [outcome exec]. apply A.
  - unfold NpxInspectorCli.runInspectorCli. cbn [outcome exec]. apply A.
Qed.

(** X8: when the command closes with a code that is not 0, or emits an
    error event, before the timer has fired and before any other close or
    error event, every handler answers with the failure of [execCommand] as
    it is; stdout is not parsed, so the answer does not depend on the parser,
    even where stdout holds valid JSON. *)
Theorem handler_exec_failure (rt : JsRuntime) (inspectorPath : string)
    (n : ToolName) (params : ToolParams n)
    (before after : list ChildEvent) (code : option Z) (msg : string) :
  data_only before = true ->
  (nonzero code = true ->
   returned (handler inspectorPath params
               (Spawned (before ++ CloseEvent code :: after)))
   = Some (errorResponse
             (inspectorError EXECUTION_FAILED
                ("Command exited with code " ++ code_toString code)
                (Some (if truthy (stderr_of before)
                       then stderr_of before
                       else stdout_of before)))))
  /\ returned (handler inspectorPath params
                 (Spawned (before ++ ErrorEvent msg :: after)))
     = Some (errorResponse
               (inspectorError SPAWN_FAILED "Failed to spawn command: node"
                  (Some msg))).
Proof.
  intros D. split.
  - intros N. rewrite handler_returned, closed_result by exact D.
    now rewrite N.
  - now rewrite handler_returned, errored_result by exact D.
Qed.

Lemma handler_exec_failure_witness :
  returned (@handler "cli.js" sample_runtime _
              (ListToolsParams {| p_target := "node stub.js";
                                  p_transport := None; timeout_ms := 60000 |})
              (Spawned [StdoutData "{}"; CloseEvent (Some 2)]))
  = Some (errorResponse
            (inspectorError EXECUTION_FAILED "Command exited with code 2"
               (Some "{}"))).
Proof.
  exact (proj1 (handler_exec_failure sample_runtime "cli.js" _
                  (ListToolsParams {| p_target := "node stub.js";
                                      p_transport := None;
                                      timeout_ms := 60000 |})
                  [StdoutData "{}"] [] (Some 2) EmptyString eq_refl) eq_refl).
Defined.

(** X18: when the command closes with code 0 before the timer has fired
    and before any error event, and the parser returns a value on its
    normalised stdout, every handler answers with that value printed with
    two spaces of indentation, and without an error flag. *)
Theorem handler_success (rt : JsRuntime) (inspectorPath : string)
    (n : ToolName) (params : ToolParams n)
    (before after : list ChildEvent) (v : JsonValue) :
  data_only before = true ->
  JSON_parse (normalised (stdout_of before)) = Returns v ->
  returned (handler inspectorPath params
              (Spawned (before ++ CloseEvent (Some 0) :: after)))
  = Some {| content := [{| type := "text"; text := JSON_stringify_pretty v |}];
            isError := None |}.
Proof.
  intros D P. rewrite handler_returned, closed_result by exact D.
  cbn [nonzero negb option_map andThen].
  rewrite decodeOutput_unfold, parseJson_unfold. fold (normalised (stdout_of before)).
  now rewrite P.
Qed.

Lemma handler_success_witness :
  returned (@handler "cli.js" sample_runtime _
              (ListToolsParams {| p_target := "node stub.js";
                                  p_transport := None; timeout_ms := 60000 |})
              (Spawned [StdoutData sample_tools_text; StdoutData nl;
                        StderrData "log"; CloseEvent (Some 0)]))
  = Some {| content :=
              [{| type := "text";
                  text := JSON_stringify_pretty (JObject [("tools", JArray [])]) |}];
            isError := None |}.
Proof.
  exact (handler_success sample_runtime "cli.js" _
           (ListToolsParams {| p_target := "node stub.js";
                               p_transport := None; timeout_ms := 60000 |})
           [StdoutData sample_tools_text; StdoutData nl; StderrData "log"] []
           (JObject [("tools", JArray [])]) eq_refl eq_refl).
Defined.

(** ** The decoder and white space *)

Lemma white1_excludes (a b c : ascii) :
  (white1 b = true -> white2 a b = false /\ white3 a b c = false)
  /\ (white1 c = true -> white3 a b c = false).
Proof.
  unfold white1, white2, white3, byte_is.
  split; [intros W; split | intros W]; apply not_true_is_false; intros X;
    repeat (rewrite ?orb_true_iff, ?andb_true_iff, ?Nat.eqb_eq, ?Nat.leb_le in W);
    repeat (rewrite ?orb_true_iff, ?andb_true_iff, ?Nat.eqb_eq, ?Nat.leb_le in X);
    lia.
Qed.

Lemma trimStart_blank (p : string) : blank p = true -> trimStart p = EmptyString.
Proof.
  induction p as [|c p IH]; [reflexivity |].
  simpl. intros B. apply andb_prop in B as [W B]. rewrite W. now apply IH.
Qed.

Lemma trimStart_skip (p s : string) :
  blank p = true -> trimStart (p ++ s) = trimStart s.
Proof.
  induction p as [|c p IH]; [reflexivity |].
  intros B. simpl in B. apply andb_prop in B as [W B].
  change (String c p ++ s) with (String c (p ++ s)).
  cbn [trimStart]. rewrite W. now apply IH.
Qed.

Lemma trimStart_white (a : ascii) (r : string) :
  white1 a = true -> trimStart (String a r) = trimStart r.
Proof. intros W. cbn [trimStart]. now rewrite W. Qed.

(** White space appended to a text stays behind what [trimStart] keeps,
    unless nothing is kept. *)
Lemma trimStart_app_blank (n : nat) (s post : string) :
  (String.length s <= n)%nat ->
  blank post = true ->
  trimStart (s ++ post) = trimStart s ++ post
  \/ (trimStart s = EmptyString /\ trimStart (s ++ post) = EmptyString).
Proof.
  revert s. induction n as [|n IH]; intros s L B.
  - destruct s; [| simpl in L; lia]. right. split; [reflexivity |].
    now apply trimStart_blank.
  - destruct s as [|a r].
    + right. split; [reflexivity | now apply trimStart_blank].
    + simpl in L. destruct (white1 a) eqn:Wa.
      * change (String a r ++ post) with (String a (r ++ post)).
        rewrite !trimStart_white by exact Wa. apply IH; [lia | exact B].
      * destruct r as [|b r2].
        { left. cbn [append trimStart]. rewrite Wa.
          destruct post as [|b post]; [reflexivity |].
          simpl in B. apply andb_prop in B as [Wb B].
          destruct post as [|c post].
          - now rewrite (proj1 (proj1 (white1_excludes a b b) Wb)).
          - rewrite (proj1 (proj1 (white1_excludes a b c) Wb)).
            now rewrite (proj2 (proj1 (white1_excludes a b c) Wb)). }
        destruct (white2 a b) eqn:W2.
        { change (String a (String b r2) ++ post)
            with (String a (String b (r2 ++ post))).
          cbn [trimStart]. rewrite Wa, W2.
          apply IH; [simpl in L; lia | exact B]. }
        destruct r2 as [|c r3].
        { left. cbn [append trimStart]. rewrite Wa, W2.
          destruct post as [|c post]; [reflexivity |].
          simpl in B. apply andb_prop in B as [Wc B].
          now rewrite (proj2 (white1_excludes a b c) Wc). }
        change (String a (String b (String c r3)) ++ post)
          with (String a (String b (String c (r3 ++ post)))).
        cbn [trimStart]. rewrite Wa, W2.
        destruct (white3 a b c).
        { apply IH; [simpl in L; lia | exact B]. }
        left. reflexivity.
Qed.

Lemma list_ascii_app (a b : string) :
  list_ascii_of_string (a ++ b)
  = (list_ascii_of_string a ++ list_ascii_of_string b)%list.
Proof. induction a as [|c a IH]; simpl; [reflexivity | now rewrite IH]. Qed.

Lemma blank_forallb (p : string) :
  blank p = forallb white1 (list_ascii_of_string p).
Proof. induction p as [|c p IH]; simpl; [reflexivity | now rewrite IH]. Qed.

Lemma trimStart_reversed_skip (p l : list ascii) :
  forallb white1 p = true ->
  trimStart_reversed (p ++ l) = trimStart_reversed l.
Proof.
  induction p as [|c p IH]; [reflexivity |].
  intros B. simpl in B. apply andb_prop in B as [W B].
  change ((c :: p) ++ l)%list with (c :: (p ++ l))%list.
  cbn [trimStart_reversed]. rewrite W. now apply IH.
Qed.

Lemma forallb_rev {A : Type} (f : A -> bool) (l : list A) :
  forallb f (rev l) = forallb f l.
Proof.
  induction l as [|x l IH]; [reflexivity |].
  simpl. rewrite forallb_app, IH. simpl. rewrite andb_true_r. apply andb_comm.
Qed.

Lemma trimEnd_skip (s post : string) :
  blank post = true -> trimEnd (s ++ post) = trimEnd s.
Proof.
  intros B. unfold trimEnd. rewrite list_ascii_app, rev_app_distr.
  rewrite trimStart_reversed_skip; [reflexivity |].
  now rewrite forallb_rev, <- blank_forallb.
Qed.

Lemma trim_padded (pre s post : string) :
  blank pre = true -> blank post = true ->
  trim (pre ++ s ++ post) = trim s.
Proof.
  intros Bpre Bpost. unfold trim. rewrite trimStart_skip by exact Bpre.
  destruct (trimStart_app_blank (String.length s) s post (le_n _) Bpost)
    as [E | [E1 E2]].
  - rewrite E. now apply trimEnd_skip.
  - now rewrite E1, E2.
Qed.

(** X9: white space around the stdout text does not matter to the decoder:
    spaces, tabs and line ends before and after a text leave its decoding as
    it is; a stdout of white space only decodes as the empty object text
    does. *)
Theorem decodeOutput_ignores_padding (rt : JsRuntime) (pre s post : string) :
  blank pre = true ->
  blank post = true ->
  decodeOutput (pre ++ s ++ post) = decodeOutput s
  /\ decodeOutput (pre ++ post) = parseJson "{}".
Proof.
  intros Bpre Bpost. split.
  - now rewrite !decodeOutput_unfold, trim_padded.
  - rewrite decodeOutput_unfold.
    replace (pre ++ post) with (pre ++ EmptyString ++ post) by reflexivity.
    now rewrite trim_padded.
Qed.

Lemma decodeOutput_ignores_padding_witness :
  @decodeOutput sample_runtime ((nl ++ " ") ++ sample_tools_text ++ (" " ++ nl))
  = @decodeOutput sample_runtime sample_tools_text
  /\ @decodeOutput sample_runtime ((nl ++ " ") ++ (" " ++ nl))
     = @parseJson sample_runtime "{}".
Proof.
  exact (decodeOutput_ignores_padding sample_runtime (nl ++ " ")
           sample_tools_text (" " ++ nl) eq_refl eq_refl).
Defined.

(** ** formatError *)

(** X10: the kind of a failure can be read back from its formatted text:
    two failures with the same text have the same kind. *)
Theorem formatError_keeps_kind (e1 e2 : InspectorError) :
  formatError e1 = formatError e2 -> kind e1 = kind e2.
Proof.
  rewrite !formatError_unfold. unfold headline.
  destruct (kind e1), (kind e2); intros E; try reflexivity;
    simpl in E; discriminate E.
Qed.

Lemma formatError_keeps_kind_witness :
  kind (inspectorError TIMEOUT "t" (Some "x"))
  = kind (inspectorError TIMEOUT ("t" ++ nl ++ "Details: x") None).
Proof.
  exact (formatError_keeps_kind (inspectorError TIMEOUT "t" (Some "x"))
           (inspectorError TIMEOUT ("t" ++ nl ++ "Details: x") None) eq_refl).
Defined.

(** ** The input schemas *)

Lemma nonEmptyString_ok (path : string) (v : option JsonValue) (s : string) :
  nonEmptyString path v = Ok s <-> v = Some (JString s) /\ s <> EmptyString.
Proof.
  unfold nonEmptyString. split.
  - destruct v as [[| b | x | s' | items | entries] |]; try discriminate.
    destruct s' as [|c s']; [discriminate |]. simpl.
    intros E. injection E as <-. split; [reflexivity | discriminate].
  - intros [-> N]. destruct s; [now elim N | reflexivity].
Qed.


Lemma TargetServerSchema_ok (input : Record JsonValue) (p : TargetParams) :
  TargetServerSchema input = Ok p ->
  nonEmptyString "target" (lookup "target" input) = Ok (p_target p)
  /\ TransportSchema "transport" (lookup "transport" input) = Ok (p_transport p).
Proof.
  unfold TargetServerSchema.
  destruct (nonEmptyString _ _) as [t|]; [| discriminate]. cbn [andThen].
  destruct (TransportSchema _ _) as [tr|]; [| discriminate]. cbn [andThen].
  destruct (timeoutSchema _ _) as [ms|]; [| discriminate]. cbn [andThen].
  intros E. now injection E as <-.
Qed.

Lemma inputSchema_refused_target (n : ToolName) (input : Record JsonValue)
    (issue : SchemaIssue) :
  TargetServerSchema input = Err issue -> inputSchema n input = Err issue.
Proof. intros E. destruct n; cbn [inputSchema]; now rewrite E. Qed.

(** X12: each of the six schemas takes the target only as a string that is
    not empty, and hands it to the handler unchanged; a call whose target is
    missing, empty or not a string is refused. *)
Theorem inputSchema_target_rule (n : ToolName) (input : Record JsonValue) :
  (forall params, inputSchema n input = Ok params ->
     lookup "target" input = Some (JString (p_target (targetParams params)))
     /\ p_target (targetParams params) <> EmptyString)
  /\ (match lookup "target" input with
      | Some (JString (String _ _)) => False
      | _ => True
      end -> exists issue, inputSchema n input = Err issue).
Proof.
  split.
  - intros params E.
    apply (proj1 (nonEmptyString_ok "target" _ _)).
    now apply TargetServerSchema_ok, inputSchema_target.
  - intros M. exists {| issue_path := "target" |}.
    apply inputSchema_refused_target. unfold TargetServerSchema.
    destruct (lookup "target" input) as [[| b | x | [|c s] | items | entries] |];
      try reflexivity. now elim M.
Qed.


Lemma stringEntries_ok (path : string) (entries : Record JsonValue)
    (r : Record string) :
  stringEntries path entries = Ok r
  <-> entries = map (fun kv => (fst kv, JString (snd kv))) r.
Proof.
  revert r. induction entries as [|[k v] entries IH]; intros r.
  - simpl. split.
    + now intros [= <-].
    + destruct r; [reflexivity | discriminate].
  - split.
    + cbn [stringEntries].
      destruct v as [| b | x | s | items | es]; try discriminate.
      destruct (stringEntries path entries) as [r' |] eqn:E; [| discriminate].
      cbn [andThen]. intros [= <-]. simpl.
      now rewrite (proj1 (IH r') eq_refl).
    + destruct r as [|[k' s] r]; [discriminate |]. simpl.
      intros [= -> -> E]. cbn [stringEntries].
      now rewrite (proj2 (IH r) E).
Qed.

(** ** The race of the timer and the close event *)

(** X4: a command that closes, or fails to start, before the timer fires is
    never sent a signal, whatever is delivered afterwards, a late timer event
    included; the exit code alone decides its result. *)
Theorem execCommand_close_first (command : string) (args : list string)
    (options : option ExecOptions) (before after : list ChildEvent)
    (code : option Z) (msg : string) :
  data_only before = true ->
  signals (execCommand command args options
             (Spawned (before ++ CloseEvent code :: after))) = []
  /\ signals (execCommand command args options
                (Spawned (before ++ ErrorEvent msg :: after))) = []
  /\ match result (execCommand command args options
                     (Spawned (before ++ CloseEvent code :: after))) with
     | Some (Ok out) => code = Some 0 /\ out = stdout_of before
     | Some (Err e) => code <> Some 0 /\ kind e = EXECUTION_FAILED
     | None => False
     end.
Proof.
  intros D.
  destruct (run_data command (timeout_of options) before initial D)
    as (_ & _ & _ & _ & F & _).
  assert (S : forall ev, settling ev = true ->
                signals (execCommand command args options
                           (Spawned (before ++ ev :: after))) = []).
  { intros ev Sv. rewrite signals_spawned, run_app, run_cons.
    destruct (settling_step command (timeout_of options)
                (run_events command (timeout_of options) before initial) ev Sv)
      as (r & _ & A).
    destruct (disarmed_run command (timeout_of options) after _ A) as [K _].
    rewrite K.
    destruct ev as [d | d | | m | c]; try discriminate Sv.
    - simpl. unfold settle; simpl. destruct (settled _); exact F.
    - simpl. destruct (timedOut _); [| destruct (negb _)];
        unfold settle; simpl; destruct (settled _); exact F. }
  split; [now apply S | split; [now apply S |]].
  rewrite closed_result by exact D.
  destruct code as [[| c | c] |]; simpl; split;
    reflexivity || discriminate.
Qed.

Lemma execCommand_close_first_witness :
  signals (execCommand "node" [] None
             (Spawned ([StdoutData "{}"] ++ CloseEvent (Some 0)
                       :: [TimerFires; CloseEvent (Some 1)]))) = [].
Proof.
  exact (proj1 (execCommand_close_first "node" [] None [StdoutData "{}"]
                  [TimerFires; CloseEvent (Some 1)] (Some 0) EmptyString
                  eq_refl)).
Defined.

(** ** How the two revisions start the CLI *)

(** X16: the current revision has the script run by [node] with the shell
    off; the earlier one had the package run by [npx] through the shell, the
    default of [execCommand]; both pass no working directory and no
    environment, and both run with 60000 ms when no timeout is given, never
    with the 30000 ms of [execCommand]. *)
Theorem runInspectorCli_invocation (rt : JsRuntime) (inspectorPath : string)
    (m : InspectorMethod) (t : TargetServer)
    (methodArgs : option (InspectorCli.MethodArgs m))
    (jsonArgs : option (Record JsonValue)) (timeout : option Z)
    (child : ChildProcess) :
  spawned (exec (InspectorCli.runInspectorCli inspectorPath m t methodArgs
                   timeout child))
  = {| spawn_command := "node";
       spawn_args := InspectorCli.buildCliArgs inspectorPath m t methodArgs;
       spawn_cwd := None; spawn_env := None; spawn_shell := false |}
  /\ spawned (exec (NpxInspectorCli.runInspectorCli m t jsonArgs timeout child))
     = {| spawn_command := "npx";
          spawn_args := NpxInspectorCli.buildCliArgs m t jsonArgs;
          spawn_cwd := None; spawn_env := None; spawn_shell := true |}
  /\ timerDelay (exec (InspectorCli.runInspectorCli inspectorPath m t methodArgs
                         timeout child))
     = match timeout with Some ms => ms | None => 60000 end
  /\ timerDelay (exec (NpxInspectorCli.runInspectorCli m t jsonArgs timeout child))
     = match timeout with Some ms => ms | None => 60000 end.
Proof.
  unfold InspectorCli.runInspectorCli, NpxInspectorCli.runInspectorCli.
  cbn [exec]. now destruct child.
Qed.

(** ** The registration *)

(** X19: the six tools are registered under six different names, and their
    annotations single out the call tool: it alone is not read-only, it
    alone is destructive and not idempotent; every tool is open-world. *)
Theorem registration_table (a b : ToolName) :
  (registeredName a = registeredName b -> a = b)
  /\ In a registeredTools
  /\ NoDup (map registeredName registeredTools)
  /\ (readOnlyHint (annotations a) = false <-> a = mcpdev_inspector_call_tool)
  /\ destructiveHint (annotations a) = negb (readOnlyHint (annotations a))
  /\ idempotentHint (annotations a) = readOnlyHint (annotations a)
  /\ openWorldHint (annotations a) = true.
Proof.
  repeat split.
  - destruct a, b; intros E; try reflexivity; discriminate E.
  - destruct a; simpl; tauto.
  - repeat constructor; simpl; intuition discriminate.
  - destruct a; simpl; intros E; reflexivity || discriminate E.
  - intros ->. reflexivity.
  - now destruct a.
  - now destruct a.
  - now destruct a.
Qed.

(** ** When a handler returns *)

(** X20: a handler whose command was spawned returns exactly when a close
    event or an error event has been delivered: until then the call is
    pending, also after the timer has fired and SIGTERM was sent. *)
Theorem handler_returns_iff (rt : JsRuntime) (inspectorPath : string)
    (n : ToolName) (params : ToolParams n) (events : list ChildEvent) :
  returned (handler inspectorPath params (Spawned events)) = None
  <-> existsb settling events = false.
Proof.
  rewrite handler_returned, result_spawned. split.
  - intros P. destruct (existsb settling events) eqn:Q; [| reflexivity].
    destruct (settling_run "node" (timeout_of (handlerOptions params))
                events initial Q) as (r & E).
    rewrite E in P. destruct r; discriminate P.
  - intros Q. now rewrite quiet_run.
Qed.

(** ** After the timer has fired *)

(** With the timer disarmed, events that do not settle only add to the two
    buffers. *)
Lemma run_quiet_disarmed (command : string) (timeout : Z)
    (events : list ChildEvent) (st : ExecState) :
  existsb settling events = false ->
  timerArmed st = false ->
  stdout (run_events command timeout events st) = stdout st ++ stdout_of events
  /\ stderr (run_events command timeout events st) = stderr st ++ stderr_of events
  /\ timedOut (run_events command timeout events st) = timedOut st
  /\ timerArmed (run_events command timeout events st) = false
  /\ killed (run_events command timeout events st) = killed st
  /\ settled (run_events command timeout events st) = settled st.
Proof.
  revert st. induction events as [|ev events IH]; intros st Q A.
  - simpl. rewrite !append_empty_r. now repeat split.
  - simpl in Q. apply orb_false_elim in Q as [Qev Q].
    rewrite run_cons.
    destruct ev as [d | d | | msg | code]; try discriminate Qev.
    + destruct (IH (on_event command timeout st (StdoutData d)) Q A)
        as (E1 & E2 & E3 & E4 & E5 & E6).
      rewrite E1, E2, E3, E4, E5, E6. simpl.
      rewrite ?append_assoc. now repeat split.
    + destruct (IH (on_event command timeout st (StderrData d)) Q A)
        as (E1 & E2 & E3 & E4 & E5 & E6).
      rewrite E1, E2, E3, E4, E5, E6. simpl.
      rewrite ?append_assoc. now repeat split.
    + assert (S : on_event command timeout st TimerFires = st)
        by (simpl; now rewrite A).
      rewrite S. now apply IH.
Qed.

Lemma first_settling_some (events between : list ChildEvent) (s : ChildEvent) :
  first_settling events = Some (between, s) ->
  existsb settling between = false /\ settling s = true
  /\ exists after, events = (between ++ s :: after)%list.
Proof.
  revert between. induction events as [|ev events IH]; intros between E.
  - discriminate E.
  - simpl in E. destruct (settling ev) eqn:S.
    + injection E as <- <-. repeat split; [exact S | now exists events].
    + destruct (first_settling events) as [[b s'] |]; [| discriminate E].
      injection E as <- <-.
      destruct (IH b eq_refl) as (Q & S' & after & ->).
      repeat split; [simpl; now rewrite S, Q | exact S' | now exists after].
Qed.

Lemma first_settling_none (events : list ChildEvent) :
  first_settling events = None -> existsb settling events = false.
Proof.
  induction events as [|ev events IH]; [reflexivity |].
  simpl. destruct (settling ev); [discriminate |].
  destruct (first_settling events) as [[b s] |]; [discriminate |].
  intros _. now apply IH.
Qed.

(** A run whose timer fired on a pending call, from there on. *)
Lemma fired_then (command : string) (args : list string)
    (options : option ExecOptions) (before rest : list ChildEvent) :
  data_only before = true ->
  exists st,
    timedOut st = true /\ settled st = None /\ killed st = ["SIGTERM"]
    /\ stderr st = stderr_of before /\ timerArmed st = false
    /\ run_events command (timeout_of options)
         (before ++ TimerFires :: rest) initial
       = run_events command (timeout_of options) rest st.
Proof.
  intros D.
  destruct (after_timer command (timeout_of options) before D)
    as (T & S & K & E & _ & A).
  eexists. repeat split; try eassumption.
  change (before ++ TimerFires :: rest)%list
    with (before ++ [TimerFires] ++ rest)%list.
  now rewrite app_assoc, run_app.
Qed.

Lemma fired_signals (command : string) (args : list string)
    (options : option ExecOptions) (before rest : list ChildEvent) :
  data_only before = true ->
  signals (execCommand command args options
             (Spawned (before ++ TimerFires :: rest))) = ["SIGTERM"].
Proof.
  intros D.
  destruct (fired_then command args options before rest D)
    as (st & _ & _ & K & _ & A & R).
  rewrite signals_spawned, R.
  destruct (disarmed_run command (timeout_of options) rest st A) as [K' _].
  now rewrite K'.
Qed.

Lemma fired_pending (command : string) (args : list string)
    (options : option ExecOptions) (before between : list ChildEvent) :
  data_only before = true ->
  existsb settling between = false ->
  result (execCommand command args options
            (Spawned (before ++ TimerFires :: between))) = None.
Proof.
  intros D Q.
  destruct (fired_then command args options before between D)
    as (st & _ & S & _ & _ & A & R).
  rewrite result_spawned, R.
  destruct (run_quiet_disarmed command (timeout_of options) between st Q A)
    as (_ & _ & _ & _ & _ & G).
  now rewrite G, S.
Qed.

Lemma fired_closed (command : string) (args : list string)
    (options : option ExecOptions) (before between after : list ChildEvent)
    (code : option Z) :
  data_only before = true ->
  existsb settling between = false ->
  result (execCommand command args options
            (Spawned (before ++ TimerFires :: between
                      ++ CloseEvent code :: after)))
  = Some (Err (timeoutError (timeout_of options)
                 (stderr_of before ++ stderr_of between))).
Proof.
  intros D Q.
  destruct (fired_then command args options before
              (between ++ CloseEvent code :: after) D)
    as (st & T & S & _ & E & A & R).
  rewrite result_spawned, R, run_app, run_cons.
  destruct (run_quiet_disarmed command (timeout_of options) between st Q A)
    as (_ & B & C & _ & _ & G).
  erewrite run_settled;
    [| rewrite close_pending by (now rewrite G);
       rewrite C, T, B, E; reflexivity].
  reflexivity.
Qed.

Lemma fired_errored (command : string) (args : list string)
    (options : option ExecOptions) (before between after : list ChildEvent)
    (msg : string) :
  data_only before = true ->
  existsb settling between = false ->
  result (execCommand command args options
            (Spawned (before ++ TimerFires :: between
                      ++ ErrorEvent msg :: after)))
  = Some (Err (inspectorError SPAWN_FAILED
                 ("Failed to spawn command: " ++ command) (Some msg))).
Proof.
  intros D Q.
  destruct (fired_then command args options before
              (between ++ ErrorEvent msg :: after) D)
    as (st & _ & S & _ & _ & A & R).
  rewrite result_spawned, R, run_app, run_cons.
  destruct (run_quiet_disarmed command (timeout_of options) between st Q A)
    as (_ & _ & _ & _ & _ & G).
  erewrite run_settled;
    [| rewrite error_pending by (now rewrite G); reflexivity].
  reflexivity.
Qed.

(** C3, as the code has it: when the timer fires while the child is still
    running, the timed-out flag is set and SIGTERM is sent, and the call
    stays pending until a close or an error event of the child is delivered;
    if the close event comes first the call fails with TIMEOUT, the details
    being the stderr accumulated up to that close event, what was written
    after the signal included; if an error event comes first the call fails
    with SPAWN_FAILED and the message of that event. *)
Theorem execCommand_timeout_on_close
    (command : string) (args : list string) (options : option ExecOptions)
    (before rest : list ChildEvent) :
  data_only before = true ->
  signals (execCommand command args options
             (Spawned (before ++ TimerFires :: rest)))
  = ["SIGTERM"]
  /\ result (execCommand command args options
               (Spawned (before ++ [TimerFires])))
     = None
  /\ result (execCommand command args options
               (Spawned (before ++ TimerFires :: rest)))
     = match first_settling rest with
       | None => None
       | Some (between, CloseEvent code) =>
           Some (Err (inspectorError TIMEOUT
                        ("Command timed out after "
                         ++ Number_toString (timeout_of options) ++ "ms")
                        (Some (stderr_of before ++ stderr_of between))))
       | Some (between, ErrorEvent msg) =>
           Some (Err (inspectorError SPAWN_FAILED
                        ("Failed to spawn command: " ++ command) (Some msg)))
       | Some (_, _) => None
       end.
Proof.
  intros D. split; [now apply fired_signals | split].
  - now apply (fired_pending command args options before []).
  - destruct (first_settling rest) as [[between s] |] eqn:F.
    + destruct (first_settling_some rest between s F) as (Q & S & after & ->).
      destruct s as [d | d | | msg | code]; try discriminate S.
      * now apply fired_errored.
      * now apply fired_closed.
    + apply fired_pending; [exact D | now apply first_settling_none].
Qed.

Lemma execCommand_timeout_on_close_witness :
  signals (execCommand "node" [] None
             (Spawned ([StdoutData "x"] ++ TimerFires
                       :: [StderrData "bye"; CloseEvent None;
                           ErrorEvent "late"])))
  = ["SIGTERM"]
  /\ result (execCommand "node" [] None
               (Spawned ([StdoutData "x"] ++ [TimerFires])))
     = None
  /\ result (execCommand "node" [] None
               (Spawned ([StdoutData "x"] ++ TimerFires
                         :: [StderrData "bye"; CloseEvent None;
                             ErrorEvent "late"])))
     = Some (Err (inspectorError TIMEOUT "Command timed out after 30000ms"
                    (Some "bye"))).
Proof.
  exact (execCommand_timeout_on_close "node" [] None
           [StdoutData "x"]
           [StderrData "bye"; CloseEvent None; ErrorEvent "late"] eq_refl).
Defined.

(** C10, as the claim words it, fails: the timer fires, the signal cannot be
    delivered and the process object emits an error event, and the child then
    exits with code 0; the outcome is SPAWN_FAILED, not TIMEOUT. *)
Lemma timed_out_run_can_end_spawn_failed :
  signals (execCommand "node" [] None
             (Spawned [TimerFires; ErrorEvent "kill EPERM"; CloseEvent (Some 0)]))
  = ["SIGTERM"]
  /\ result (execCommand "node" [] None
               (Spawned [TimerFires; ErrorEvent "kill EPERM";
                         CloseEvent (Some 0)]))
     = Some (Err (inspectorError SPAWN_FAILED "Failed to spawn command: node"
                    (Some "kill EPERM"))).
Proof. split; reflexivity. Qed.

(** ** The handlers, from the child to the answer *)

(** C1: each of the six handlers runs the command on the child it is given
    and answers by what that run does: a failure of the run, or of the
    parser on its stdout, is answered by a response whose [isError] is true
    and whose one content item is the text of [formatError], which begins
    with [Error [], a decoded value by a response without [isError] whose
    one content item is the text [JSON.stringify(value, null, 2)]; a call
    whose child closes or emits an error is answered, and so is one whose
    [spawn] throws; nothing is thrown on. *)
Theorem handler_response (rt : JsRuntime) (inspectorPath : string)
    (n : ToolName) (params : ToolParams n) (child : ChildProcess) :
  exec (pipeline (handler inspectorPath params child))
  = execCommand "node" (handlerArgs inspectorPath params)
      (handlerOptions params) child
  /\ match result (execCommand "node" (handlerArgs inspectorPath params)
                     (handlerOptions params) child) with
     | None =>
         outcome (pipeline (handler inspectorPath params child)) = None
         /\ returned (handler inspectorPath params child) = None
     | Some (Err e) =>
         outcome (pipeline (handler inspectorPath params child)) = Some (Err e)
         /\ returned (handler inspectorPath params child)
            = Some {| content := [{| type := "text"; text := formatError e |}];
                      isError := Some true |}
         /\ String.prefix "Error [" (formatError e) = true
     | Some (Ok out) =>
         match JSON_parse (normalised out) with
         | Returns v =>
             outcome (pipeline (handler inspectorPath params child))
             = Some (Ok v)
             /\ returned (handler inspectorPath params child)
                = Some {| content :=
                            [{| type := "text";
                                text := JSON_stringify_pretty v |}];
                          isError := None |}
         | Throws t =>
             outcome (pipeline (handler inspectorPath params child))
             = Some (Err (inspectorError PARSE_FAILED
                            "Failed to parse JSON response"
                            (Some (thrown_message t))))
             /\ returned (handler inspectorPath params child)
                = Some {| content :=
                            [{| type := "text";
                                text :=
                                  formatError
                                    (inspectorError PARSE_FAILED
                                       "Failed to parse JSON response"
                                       (Some (thrown_message t))) |}];
                          isError := Some true |}
         end
     end
  /\ match outcome (pipeline (handler inspectorPath params child)) with
     | Some (Err e) =>
         returned (handler inspectorPath params child)
         = Some {| content := [{| type := "text"; text := formatError e |}];
                   isError := Some true |}
         /\ String.prefix "Error [" (formatError e) = true
     | Some (Ok v) =>
         returned (handler inspectorPath params child)
         = Some {| content :=
                     [{| type := "text"; text := JSON_stringify_pretty v |}];
                   isError := None |}
     | None => returned (handler inspectorPath params child) = None
     end
  /\ (forall events, existsb settling events = true ->
      exists response,
        returned (handler inspectorPath params (Spawned events)) = Some response
        /\ length (content response) = 1%nat)
  /\ (forall name msg,
        exists e,
          returned (handler inspectorPath params (SpawnThrew name msg))
          = Some {| content := [{| type := "text"; text := formatError e |}];
                    isError := Some true |}
          /\ kind e = SPAWN_FAILED
          /\ message e = "Unknown error during command execution").
Proof.
  split; [| split; [| split; [| split]]].
  - now rewrite handler_unfold.
  - rewrite handler_unfold. cbn [pipeline awaitAndRespond outcome returned].
    destruct (result _) as [[out | e] |]; cbn [option_map andThen].
    + rewrite decodeOutput_unfold, parseJson_unfold. fold (normalised out).
      destruct (JSON_parse (normalised out)); now split.
    + repeat split. apply formatError_prefix.
    + now split.
  - rewrite handler_unfold. cbn [pipeline awaitAndRespond outcome returned].
    destruct (option_map _ _) as [[v | e] |]; cbn [option_map respond];
      [reflexivity | split; [reflexivity | apply formatError_prefix]
      | reflexivity].
  - intros events Q. rewrite handler_returned, result_spawned.
    destruct (settling_run "node" (timeout_of (handlerOptions params))
                events initial Q) as (r & E).
    rewrite E. destruct r as [out | t]; cbn [fromPromise option_map andThen].
    + rewrite respond_unfold.
      destruct (decodeOutput out); eexists; split; reflexivity.
    + eexists; split; reflexivity.
  - intros name msg. rewrite handler_returned.
    eexists. repeat split.
Qed.

(** The answers to four children: a tool list on stdout, an exit with code
    1, text that is not JSON, and a timer that fires. *)
Example handler_response_children :
  let params := ListToolsParams {| p_target := "node stub.js";
                                   p_transport := None; timeout_ms := 1000 |} in
  option_map isError
    (returned (@handler "cli.js" sample_runtime _ params
                 (Spawned [StdoutData sample_tools_text; CloseEvent (Some 0)])))
  = Some None
  /\ option_map (fun r => map text (content r))
       (returned (@handler "cli.js" sample_runtime _ params
                    (Spawned [StderrData "no"; CloseEvent (Some 1)])))
     = Some ["Error [EXECUTION_FAILED]: Command exited with code 1"
             ++ nl ++ "Details: no"]
  /\ option_map (fun r => map text (content r))
       (returned (@handler "cli.js" sample_runtime _ params
                    (Spawned [StdoutData "not-json"; CloseEvent (Some 0)])))
     = Some ["Error [PARSE_FAILED]: Failed to parse JSON response"
             ++ nl ++ "Details: Unexpected token in not-json"]
  /\ option_map (fun r => map text (content r))
       (returned (@handler "cli.js" sample_runtime _ params
                    (Spawned [TimerFires; CloseEvent None])))
     = Some ["Error [TIMEOUT]: Command timed out after 1000ms"].
Proof. repeat split. Qed.

(** ** The timeout, accepted and refused *)

Lemma lookup_withTimeout (key : string) (v : JsonValue)
    (input : Record JsonValue) :
  lookup key (withTimeout v input)
  = if String.eqb "timeout_ms" key then Some v else lookup key input.
Proof. reflexivity. Qed.

Lemma lookup_withoutTimeout (key : string) (input : Record JsonValue) :
  lookup key (withoutTimeout input)
  = if String.eqb "timeout_ms" key then None else lookup key input.
Proof.
  unfold withoutTimeout. induction input as [|[k x] input IH].
  - cbn [filter lookup]. now destruct (String.eqb "timeout_ms" key).
  - cbn [filter fst]. destruct (String.eqb_spec k "timeout_ms") as [-> | N].
    + cbn [negb]. rewrite IH. cbn [lookup].
      now destruct (String.eqb "timeout_ms" key).
    + cbn [negb lookup]. rewrite IH.
      destruct (String.eqb_spec "timeout_ms" key) as [<- | _];
        [| reflexivity].
      destruct (String.eqb_spec k "timeout_ms") as [-> | _];
        [now elim N | reflexivity].
Qed.

(** A schema reads the arguments through the keys it names only; with the
    other keys as they were, the timeout alone decides. *)
Lemma inputSchema_timeout_only (n : ToolName) (input input' : Record JsonValue)
    (params : ToolParams n) (ms : Z) :
  (forall key, String.eqb "timeout_ms" key = false ->
               lookup key input' = lookup key input) ->
  inputSchema n input = Ok params ->
  timeoutSchema "timeout_ms" (lookup "timeout_ms" input') = Ok ms ->
  exists params',
    inputSchema n input' = Ok params'
    /\ timeout_ms (targetParams params') = ms.
Proof.
  intros H E T. revert E.
  destruct n; cbn [inputSchema]; unfold TargetServerSchema;
    rewrite ?(H "target" eq_refl), ?(H "transport" eq_refl),
      ?(H "tool_name" eq_refl), ?(H "tool_args" eq_refl),
      ?(H "uri" eq_refl), ?(H "prompt_name" eq_refl),
      ?(H "prompt_args" eq_refl), T;
    destruct (nonEmptyString "target" _); try discriminate; cbn [andThen];
    destruct (TransportSchema _ _); try discriminate; cbn [andThen];
    destruct (timeoutSchema _ (lookup "timeout_ms" input));
    try discriminate; cbn [andThen];
    repeat (match goal with
            | |- context [andThen ?x _] =>
                destruct x; try discriminate; cbn [andThen]
            end);
    intros _; eexists; split; reflexivity.
Qed.

Lemma callRegisteredTool_delay (rt : JsRuntime) (inspectorPath : string)
    (n : ToolName) (input : Record JsonValue) (params : ToolParams n)
    (child : ChildProcess) :
  inputSchema n input = Ok params ->
  map snd (spawnCalls (callRegisteredTool inspectorPath n input child))
  = [timeout_ms (targetParams params)].
Proof.
  intros E. unfold callRegisteredTool. rewrite E.
  cbn [spawnCalls map snd]. now rewrite handler_timerDelay.
Qed.

(** C7: each of the six tools takes a timeout in milliseconds: its schema
    accepts every integer from 1000 to 300000 and no other value, sets 60000
    when the timeout is left out, and a call that gives only the target and
    the field the tool requires is accepted; a refused value stops the call
    before any process is spawned, an accepted one is the delay of the timer;
    [execCommand] itself, given no timeout, runs with 30000. *)
Theorem timeout_bounds_and_defaults (rt : JsRuntime) (inspectorPath : string)
    (n : ToolName) (input : Record JsonValue) (child : ChildProcess) :
  (forall params, inputSchema n input = Ok params ->
     callRegisteredTool inspectorPath n input child
     = HandlerCalled (handler inspectorPath params child)
     /\ map snd (spawnCalls (callRegisteredTool inspectorPath n input child))
        = [timeout_ms (targetParams params)]
     /\ 1000 <= timeout_ms (targetParams params) <= 300000
     /\ match lookup "timeout_ms" input with
        | None => timeout_ms (targetParams params) = 60000
        | Some v => v = JNumber (JsInt (timeout_ms (targetParams params)))
        end)
  /\ (forall v, lookup "timeout_ms" input = Some v ->
      acceptable_timeout v = false ->
      (exists issue,
          callRegisteredTool inspectorPath n input child = InputRefused issue)
      /\ spawnCalls (callRegisteredTool inspectorPath n input child) = [])
  /\ (forall z params, 1000 <= z <= 300000 ->
      inputSchema n input = Ok params ->
      exists params',
        inputSchema n (withTimeout (JNumber (JsInt z)) input) = Ok params'
        /\ timeout_ms (targetParams params') = z
        /\ map snd (spawnCalls
                      (callRegisteredTool inspectorPath n
                         (withTimeout (JNumber (JsInt z)) input) child))
           = [z])
  /\ (forall params, inputSchema n input = Ok params ->
      exists params',
        inputSchema n (withoutTimeout input) = Ok params'
        /\ timeout_ms (targetParams params') = 60000
        /\ map snd (spawnCalls
                      (callRegisteredTool inspectorPath n
                         (withoutTimeout input) child))
           = [60000])
  /\ (forall s, s <> EmptyString ->
      exists params,
        inputSchema n (minimalInput n s) = Ok params
        /\ timeout_ms (targetParams params) = 60000)
  /\ (forall command args,
        timerDelay (execCommand command args None child) = 30000)
  /\ (forall command args o, timeoutMs o = None ->
        timerDelay (execCommand command args (Some o) child) = 30000).
Proof.
  split; [| split; [| split; [| split; [| split; [| split]]]]].
  - intros params E. split; [unfold callRegisteredTool; now rewrite E |].
    split; [now apply callRegisteredTool_delay |].
    pose proof (timeoutSchema_ok _ _ _
                  (TargetServerSchema_timeout _ _ (inputSchema_target _ _ _ E)))
      as T.
    destruct (lookup "timeout_ms" input) as [v|].
    + destruct T as (-> & L & U). split; [lia | reflexivity].
    + split; [lia | exact T].
  - intros v L A. unfold callRegisteredTool.
    destruct (inputSchema n input) as [params | issue] eqn:E.
    + exfalso.
      pose proof (timeoutSchema_ok _ _ _
                    (TargetServerSchema_timeout _ _ (inputSchema_target _ _ _ E)))
        as T.
      rewrite L in T. destruct T as (-> & Lo & Up).
      simpl in A. apply andb_false_iff in A as [A | A];
        apply Z.leb_gt in A; lia.
    + split; [now exists issue | reflexivity].
  - intros z params [Lo Up] E.
    destruct (inputSchema_timeout_only n input
                (withTimeout (JNumber (JsInt z)) input) params z)
      as (params' & E' & T).
    + intros key K. now rewrite lookup_withTimeout, K.
    + exact E.
    + rewrite lookup_withTimeout, String.eqb_refl. cbn [timeoutSchema].
      apply Z.leb_le in Lo. apply Z.leb_le in Up. now rewrite Lo, Up.
    + exists params'. split; [exact E' | split; [exact T |]].
      now rewrite (callRegisteredTool_delay rt inspectorPath n _ params' child E'), T.
  - intros params E.
    destruct (inputSchema_timeout_only n input (withoutTimeout input) params 60000)
      as (params' & E' & T).
    + intros key K. now rewrite lookup_withoutTimeout, K.
    + exact E.
    + rewrite lookup_withoutTimeout. now rewrite String.eqb_refl.
    + exists params'. split; [exact E' | split; [exact T |]].
      now rewrite (callRegisteredTool_delay rt inspectorPath n _ params' child E'), T.
  - intros s N. destruct s as [|c s]; [now elim N |].
    destruct n; eexists; split; reflexivity.
  - intros command args. now destruct child.
  - intros command args o E. destruct child; simpl; unfold timeout_of;
      now rewrite E.
Qed.

Lemma timeout_bounds_and_defaults_witness :
  (exists params,
      inputSchema mcpdev_inspector_call_tool
        (withTimeout (JNumber (JsInt 1000))
           (minimalInput mcpdev_inspector_call_tool "x")) = Ok params
      /\ timeout_ms (targetParams params) = 1000
      /\ map snd (spawnCalls
                    (@callRegisteredTool "cli.js" sample_runtime
                       mcpdev_inspector_call_tool
                       (withTimeout (JNumber (JsInt 1000))
                          (minimalInput mcpdev_inspector_call_tool "x"))
                       (Spawned [])))
         = [1000])
  /\ (exists params,
        inputSchema mcpdev_inspector_call_tool
          (withTimeout (JNumber (JsInt 300000))
             (minimalInput mcpdev_inspector_call_tool "x")) = Ok params
        /\ timeout_ms (targetParams params) = 300000
        /\ map snd (spawnCalls
                      (@callRegisteredTool "cli.js" sample_runtime
                         mcpdev_inspector_call_tool
                         (withTimeout (JNumber (JsInt 300000))
                            (minimalInput mcpdev_inspector_call_tool "x"))
                         (Spawned [])))
           = [300000])
  /\ spawnCalls
       (@callRegisteredTool "cli.js" sample_runtime
          mcpdev_inspector_list_tools
          [("target", JString "node server.js");
           ("timeout_ms", JNumber (JsInt 999))]
          (Spawned []))
     = []
  /\ spawnCalls
       (@callRegisteredTool "cli.js" sample_runtime
          mcpdev_inspector_list_tools
          [("target", JString "node server.js");
           ("timeout_ms", JNumber (JsInt 300001))]
          (Spawned []))
     = []
  /\ spawnCalls
       (@callRegisteredTool "cli.js" sample_runtime
          mcpdev_inspector_list_tools
          [("target", JString "node server.js");
           ("timeout_ms", JString "5000")]
          (Spawned []))
     = [].
Proof.
  split; [| split; [| split; [| split]]].
  - exact (proj1 (proj2 (proj2
             (timeout_bounds_and_defaults sample_runtime "cli.js"
                mcpdev_inspector_call_tool
                (minimalInput mcpdev_inspector_call_tool "x") (Spawned []))))
             1000
             (CallToolParams {| p_target := "x"; p_transport := None;
                                timeout_ms := 60000 |} "x" [])
             (conj (Z.le_refl 1000) (Zle_bool_imp_le 1000 300000 eq_refl))
             eq_refl).
  - exact (proj1 (proj2 (proj2
             (timeout_bounds_and_defaults sample_runtime "cli.js"
                mcpdev_inspector_call_tool
                (minimalInput mcpdev_inspector_call_tool "x") (Spawned []))))
             300000
             (CallToolParams {| p_target := "x"; p_transport := None;
                                timeout_ms := 60000 |} "x" [])
             (conj (Zle_bool_imp_le 1000 300000 eq_refl) (Z.le_refl 300000))
             eq_refl).
  - exact (proj2 (proj1 (proj2
             (timeout_bounds_and_defaults sample_runtime "cli.js"
                mcpdev_inspector_list_tools
                [("target", JString "node server.js");
                 ("timeout_ms", JNumber (JsInt 999))]
                (Spawned [])))
             (JNumber (JsInt 999)) eq_refl eq_refl)).
  - exact (proj2 (proj1 (proj2
             (timeout_bounds_and_defaults sample_runtime "cli.js"
                mcpdev_inspector_list_tools
                [("target", JString "node server.js");
                 ("timeout_ms", JNumber (JsInt 300001))]
                (Spawned [])))
             (JNumber (JsInt 300001)) eq_refl eq_refl)).
  - exact (proj2 (proj1 (proj2
             (timeout_bounds_and_defaults sample_runtime "cli.js"
                mcpdev_inspector_list_tools
                [("target", JString "node server.js");
                 ("timeout_ms", JString "5000")]
                (Spawned [])))
             (JString "5000") eq_refl eq_refl)).
Defined.

(** ** The record arguments *)

(** X14: the schema of the prompt tool takes the prompt name as a string
    that is not empty and the prompt arguments as an object all of whose
    values are strings; the record the handler gets holds its entries in
    their order, but for an entry whose key is [__proto__], which is dropped;
    arguments left out are the empty record; an object holding a value that
    is not a string is refused. *)
Theorem get_prompt_schema_rule (input : Record JsonValue) :
  (forall p name a,
      inputSchema mcpdev_inspector_get_prompt input = Ok (GetPromptParams p name a) ->
      lookup "prompt_name" input = Some (JString name)
      /\ name <> EmptyString
      /\ match lookup "prompt_args" input with
         | None => a = []
         | Some v =>
             exists r,
               v = JObject (map (fun kv => (fst kv, JString (snd kv))) r)
               /\ a = filter (fun kv => negb (String.eqb (fst kv) "__proto__")) r
         end)
  /\ (forall entries k v,
        lookup "prompt_args" input = Some (JObject entries) ->
        In (k, v) entries ->
        (forall s, v <> JString s) ->
        exists issue, inputSchema mcpdev_inspector_get_prompt input = Err issue).
Proof.
  split.
  - intros p name a. cbn [inputSchema].
    destruct (TargetServerSchema input) as [p' |]; [| discriminate].
    cbn [andThen].
    destruct (nonEmptyString _ _) as [name' |] eqn:N; [| discriminate].
    cbn [andThen].
    destruct (stringRecordSchema _ _) as [a' |] eqn:A; [| discriminate].
    cbn [andThen]. intros E. injection E as -> -> ->.
    apply nonEmptyString_ok in N as [N1 N2].
    split; [exact N1 | split; [exact N2 |]].
    unfold stringRecordSchema in A.
    destruct (lookup "prompt_args" input)
      as [[| b | x | s | items | entries] |]; try discriminate A.
    + destruct (stringEntries "prompt_args" entries) as [r |] eqn:S;
        [| discriminate A].
      cbn [andThen] in A. injection A as <-.
      apply stringEntries_ok in S. subst entries. exists r.
      split; reflexivity.
    + now injection A as <-.
  - intros entries k v L I N.
    destruct (inputSchema mcpdev_inspector_get_prompt input)
      as [params | issue] eqn:E; [| now exists issue].
    exfalso. revert E. cbn [inputSchema].
    destruct (TargetServerSchema input) as [p' |]; [| discriminate].
    cbn [andThen].
    destruct (nonEmptyString _ _) as [name' |]; [| discriminate].
    cbn [andThen]. rewrite L. cbn [stringRecordSchema].
    destruct (stringEntries "prompt_args" entries) as [a |] eqn:A;
      [| discriminate].
    apply stringEntries_ok in A. subst entries.
    apply in_map_iff in I as ([k' s] & I & _). injection I as _ I.
    now elim (N s).
Qed.


(** An entry named [__proto__] among the tool arguments does not reach the
    command line. *)
Example call_tool_drops_proto :
  option_map (fun r => match r with
                       | HandlerCalled run => spawn_args (spawned (exec (pipeline run)))
                       | InputRefused _ => []
                       end)
    (Some (@callRegisteredTool "cli.js" sample_runtime mcpdev_inspector_call_tool
             [("target", JString "node s.js"); ("tool_name", JString "ping");
              ("tool_args", JObject [("a", JString "1");
                                     ("__proto__", JNumber (JsInt 2));
                                     ("b", JBool true)])]
             (Spawned [])))
  = Some ["cli.js"; "--cli"; "node s.js"; "--method"; "tools/call";
          "--tool-name"; "ping"; "--tool-arg"; "a=1"; "--tool-arg"; "b=true"].
Proof. reflexivity. Qed.

(** ** The timeout, from the caller to the message *)

(** X17: the timeout a caller gives reaches the message: a call accepted
    with [timeout_ms] z whose child is still running when the timer fires,
    and whose close event then comes before any error event, is answered
    with the TIMEOUT failure that reads [Command timed out after <z>ms], its
    details being the stderr of the child up to the close, after exactly one
    SIGTERM. *)
Theorem tool_call_timeout (rt : JsRuntime) (inspectorPath : string)
    (n : ToolName) (input : Record JsonValue) (params : ToolParams n) (z : Z)
    (before between after : list ChildEvent) (code : option Z) :
  inputSchema n input = Ok params ->
  lookup "timeout_ms" input = Some (JNumber (JsInt z)) ->
  data_only before = true ->
  existsb settling between = false ->
  exists run,
    callRegisteredTool inspectorPath n input
      (Spawned (before ++ TimerFires :: between ++ CloseEvent code :: after))
    = HandlerCalled run
    /\ returned run
       = Some (errorResponse
                 (inspectorError TIMEOUT
                    ("Command timed out after " ++ Number_toString z ++ "ms")
                    (Some (stderr_of before ++ stderr_of between))))
    /\ signals (exec (pipeline run)) = ["SIGTERM"].
Proof.
  intros E L D Q. unfold callRegisteredTool. rewrite E.
  eexists. split; [reflexivity |].
  pose proof (timeoutSchema_ok _ _ _
                (TargetServerSchema_timeout _ _ (inputSchema_target _ _ _ E)))
    as T.
  rewrite L in T. destruct T as (T & _). injection T as T.
  split.
  - rewrite handler_returned, fired_closed by assumption.
    cbn [option_map andThen respond handlerOptions timeout_of timeoutMs].
    now rewrite <- T.
  - rewrite handler_unfold. cbn [pipeline awaitAndRespond exec].
    now apply fired_signals.
Qed.

Lemma tool_call_timeout_witness :
  exists run,
    @callRegisteredTool "cli.js" sample_runtime mcpdev_inspector_list_tools
      [("target", JString "node slow.js"); ("timeout_ms", JNumber (JsInt 1000))]
      (Spawned ([] ++ TimerFires :: [StderrData "killed"; TimerFires]
                ++ CloseEvent None :: [ErrorEvent "late"]))
    = HandlerCalled run
    /\ returned run
       = Some (errorResponse
                 (inspectorError TIMEOUT "Command timed out after 1000ms"
                    (Some "killed")))
    /\ signals (exec (pipeline run)) = ["SIGTERM"].
Proof.
  exact (tool_call_timeout sample_runtime "cli.js" mcpdev_inspector_list_tools
           [("target", JString "node slow.js");
            ("timeout_ms", JNumber (JsInt 1000))]
           (ListToolsParams {| p_target := "node slow.js"; p_transport := None;
                               timeout_ms := 1000 |})
           1000 [] [StderrData "killed"; TimerFires] [ErrorEvent "late"] None
           eq_refl eq_refl eq_refl eq_refl).
Defined.
